(** * eos_user: declarative management of local users on Arista EOS

    A shallow embedding of [lib/ansible/modules/network/eos/eos_user.py]
    and the properties of its reconcile-and-render engine.

    Python values are embedded as [pyval], dictionaries as [gmap string pyval],
    exceptions (including the [SystemExit] of [module.fail_json]) as the
    [Raise] branch of [result]. *)

From Stdlib Require Import ZArith List Bool Ascii String Lia.
From stdpp Require Import base option list gmap strings pretty.

Local Open Scope string_scope.
Local Open Scope list_scope.
Local Open Scope Z_scope.

(** ** Python values, truthiness, equality and [str()] *)

Inductive pyval : Type :=
| PNone
| PBool (b : bool)
| PInt (z : Z)
| PStr (s : string).

(** [bool(v)]: [None], [False], [0] and the empty string are falsy. *)
Definition truthy (v : pyval) : bool :=
  match v with
  | PNone => false
  | PBool b => b
  | PInt z => negb (z =? 0)
  | PStr s => negb (String.eqb s "")
  end.

(** [v == w]; a bool compares as the integer 0 or 1. *)
Definition py_eq (v w : pyval) : bool :=
  match v, w with
  | PNone, PNone => true
  | PBool a, PBool b => Bool.eqb a b
  | PBool a, PInt z | PInt z, PBool a => z =? Z.b2z a
  | PInt a, PInt b => a =? b
  | PStr a, PStr b => String.eqb a b
  | _, _ => false
  end.

(** ['%s' % v]. *)
Definition py_str (v : pyval) : string :=
  match v with
  | PNone => "None"
  | PBool true => "True"
  | PBool false => "False"
  | PInt z => pretty z
  | PStr s => s
  end.

(** ** Exceptions *)

Inductive exn : Type :=
| KeyError (key : string)
| ValueError (literal : string)      (* int() on a non-integer literal *)
| TypeError (what : string)
| ReError (pattern : string)         (* re.error: the pattern does not compile *)
| FailJson (msg : string).           (* module.fail_json(msg=...) *)

Inductive result (A : Type) : Type :=
| Ok (a : A)
| Raise (e : exn).
Arguments Ok {A} a.
Arguments Raise {A} e.

#[global] Instance result_ret : MRet result := fun A a => Ok a.
#[global] Instance result_bind : MBind result := fun A B k r =>
  match r with
  | Ok a => k a
  | Raise e => Raise e
  end.

(** ** Dictionaries *)

Abbreviation dict := (gmap string pyval).

(** [d[key]] *)
Definition getitem (d : dict) (key : string) : result pyval :=
  match d !! key with
  | Some v => Ok v
  | None => Raise (KeyError key)
  end.

(** [d.get(key)] *)
Definition dict_get (d : dict) (key : string) : pyval :=
  default PNone (d !! key).

(** [bool(d)]: a dictionary is truthy when it has an entry. *)
Definition dict_truthy (d : dict) : bool :=
  negb (bool_decide (d = ∅)).

(** ** Strings *)

Definition LF : ascii := ascii_of_nat 10.

(** The characters [\s] matches in a byte pattern; [\S] is the complement. *)
Definition is_space (c : ascii) : bool :=
  let n := nat_of_ascii c in
  (Nat.eqb n 32 || (Nat.leb 9 n && Nat.leb n 13))%bool.

Definition nonempty (s : string) : bool :=
  match s with
  | EmptyString => false
  | String _ _ => true
  end.

(** [s[len(p):]] when [s] starts with [p]. *)
Fixpoint strip_prefix (p s : string) : option string :=
  match p, s with
  | EmptyString, _ => Some s
  | String a p', String b s' =>
      if Ascii.eqb a b then strip_prefix p' s' else None
  | String _ _, EmptyString => None
  end.

(** The longest prefix matched by [\S*]. *)
Fixpoint span_nonspace (s : string) : string :=
  match s with
  | EmptyString => EmptyString
  | String c s' => if is_space c then EmptyString else String c (span_nonspace s')
  end.

(** The longest prefix matched by [.*] (everything up to a newline). *)
Fixpoint span_line (s : string) : string :=
  match s with
  | EmptyString => EmptyString
  | String c s' => if Ascii.eqb c LF then EmptyString else String c (span_line s')
  end.

(** [s.split('\n')] *)
Fixpoint split_lines (s : string) : list string :=
  match s with
  | EmptyString => [EmptyString]
  | String c s' =>
      if Ascii.eqb c LF then EmptyString :: split_lines s'
      else match split_lines s' with
           | l :: ls => String c l :: ls
           | [] => [String c EmptyString]
           end
  end.

(** ['\n'.join(ls)] *)
Fixpoint join_lines (ls : list string) : string :=
  match ls with
  | [] => EmptyString
  | [l] => l
  | l :: ls' => l +:+ String LF (join_lines ls')
  end.

(** [p in s] *)
Fixpoint contains (p s : string) : bool :=
  match strip_prefix p s with
  | Some _ => true
  | None => match s with
            | EmptyString => false
            | String _ s' => contains p s'
            end
  end.

(** ** Regular-expression searches of the parser

    Every pattern of the parser is a literal keyword followed by one greedy
    run, so each search is written out as the left-to-right scan that
    [re.search] performs. *)

(** [re.search(kw + r'(\S+)', data, re.M)], returning [group(1)]. *)
Fixpoint search_token (kw data : string) : option string :=
  let here :=
    match strip_prefix kw data with
    | Some rest => let tok := span_nonspace rest in
                   if nonempty tok then Some tok else None
    | None => None
    end in
  match here with
  | Some tok => Some tok
  | None => match data with
            | EmptyString => None
            | String _ data' => search_token kw data'
            end
  end.

(** [re.search(kw + r'(.+)$', data, re.M)], returning [group(1)]. *)
Fixpoint search_rest_of_line (kw data : string) : option string :=
  let here :=
    match strip_prefix kw data with
    | Some rest => let l := span_line rest in
                   if nonempty l then Some l else None
    | None => None
    end in
  match here with
  | Some l => Some l
  | None => match data with
            | EmptyString => None
            | String _ data' => search_rest_of_line kw data'
            end
  end.

(** [int(s)] on a string: an optional sign and decimal digits.  The tokens
    it is applied to hold no whitespace; digit separators, which newer
    interpreters accept, are taken as invalid. *)
Definition digit_of (c : ascii) : option Z :=
  let n := nat_of_ascii c in
  if (Nat.leb 48 n && Nat.leb n 57)%bool then Some (Z.of_nat (n - 48)) else None.

Fixpoint digits_value (acc : Z) (s : string) : option Z :=
  match s with
  | EmptyString => Some acc
  | String c s' => match digit_of c with
                   | Some d => digits_value (10 * acc + d) s'
                   | None => None
                   end
  end.

Definition py_int (s : string) : result Z :=
  let unsigned (t : string) :=
    if nonempty t then digits_value 0 t else None in
  let parsed :=
    match s with
    | String "-" t => Z.opp <$> unsigned t
    | String "+" t => unsigned t
    | _ => unsigned s
    end in
  match parsed with
  | Some z => Ok z
  | None => Raise (ValueError s)
  end.

(** ** The module object

    [module.params] after [LocalAnsibleModule] has applied [argument_spec]:
    every key is there, typed as declared, with [None] for what the task
    did not give; [purge], [state] and [update_password] carry defaults. *)

(** An entry of [users]: a bare value or a hash. *)
Inductive user_item : Type :=
| Bare (name : pyval)
| Hash (d : dict).

Record Params : Type := {
  users : option (list user_item);
  username : option string;
  password : option string;
  nopassword : option bool;
  update_password : string;
  privilege : option Z;
  role : option string;
  sshkey : option string;
  purge : bool;
  state : string
}.

Record AnsibleModule : Type := {
  params : Params;
  check_mode : bool;
  _diff : bool;
  (** [module._CHECK_ARGUMENT_TYPES_DISPATCHER[value_type](value)], defined in
      [ansible.module_utils.basic]. *)
  _CHECK_ARGUMENT_TYPES_DISPATCHER : string -> pyval -> result pyval
}.

Definition of_option {A} (f : A -> pyval) (o : option A) : pyval :=
  match o with
  | Some a => f a
  | None => PNone
  end.

(** [module.params[key]] for the per-user keys. *)
Definition params_getitem (p : Params) (key : string) : result pyval :=
  if String.eqb key "password" then Ok (of_option PStr (password p))
  else if String.eqb key "nopassword" then Ok (of_option PBool (nopassword p))
  else if String.eqb key "privilege" then Ok (of_option PInt (privilege p))
  else if String.eqb key "role" then Ok (of_option PStr (role p))
  else if String.eqb key "sshkey" then Ok (of_option PStr (sshkey p))
  else if String.eqb key "state" then Ok (PStr (state p))
  else Raise (KeyError key).

(** [module.argument_spec[key].get('type', 'str')] *)
Definition argument_spec_type (key : string) : string :=
  if String.eqb key "users" then "list"
  else if String.eqb key "nopassword" then "bool"
  else if String.eqb key "privilege" then "int"
  else if String.eqb key "purge" then "bool"
  else "str".

(** ** validate_privilege

    [1 <= value <= 15] on a number ([True] counts as 1).  On a string the
    comparison depends on the interpreter (Python 3 raises [TypeError],
    Python 2 orders every string above every integer and so reports the
    range error); the embedding takes the [TypeError]. *)
Definition validate_privilege (value : pyval) (module : AnsibleModule) : result unit :=
  let check (z : Z) :=
    if negb ((1 <=? z) && (z <=? 15))%bool
    then Raise (FailJson ("privilege must be between 1 and 15, got " +:+ py_str value))
    else Ok tt in
  match value with
  | PInt z => check z
  | PBool b => check (Z.b2z b)
  | PNone | PStr _ => Raise (TypeError "'<=' not supported")
  end.

(** [globals().get('validate_%s' % key)] *)
Definition validator_for (key : string)
  : option (pyval -> AnsibleModule -> result unit) :=
  if String.eqb ("validate_" +:+ key) "validate_privilege"
  then Some validate_privilege else None.

(** ** map_obj_to_commands *)

Definition needs_update (want have : dict) (x : string) : bool :=
  (truthy (dict_get want x)
   && negb (py_eq (dict_get want x) (dict_get have x)))%bool.

Definition add (want : dict) (commands : list string) (x : string)
  : result (list string) :=
  u ← getitem want "username";
  Ok (commands ++ ["username " +:+ py_str u +:+ " " +:+ x]).

(** One iteration of the loop over [updates]. *)
Definition render_update (update_password : string) (want have : dict)
    (commands : list string) : result (list string) :=
  st ← getitem want "state";
  if py_eq st (PStr "absent") then
    u ← getitem want "username";
    Ok (commands ++ ["no username " +:+ py_str u])
  else
    commands ← (if needs_update want have "role"
                then r ← getitem want "role";
                     add want commands ("role " +:+ py_str r)
                else Ok commands);
    commands ← (if needs_update want have "privilege"
                then p ← getitem want "privilege";
                     add want commands ("privilege " +:+ py_str p)
                else Ok commands);
    commands ← (if needs_update want have "password"
                then if (String.eqb update_password "always"
                         || negb (dict_truthy have))%bool
                     then s ← getitem want "password";
                          add want commands ("secret " +:+ py_str s)
                     else Ok commands
                else Ok commands);
    commands ← (if needs_update want have "sshkey"
                then k ← getitem want "sshkey";
                     add want commands ("sshkey " +:+ py_str k)
                else Ok commands);
    if needs_update want have "nopassword"
    then n ← getitem want "nopassword";
         if truthy n then add want commands "nopassword"
         else u ← getitem want "username";
              add want commands ("no username " +:+ py_str u +:+ " nopassword")
    else Ok commands.

Fixpoint render_updates (update_password : string) (updates : list (dict * dict))
    (commands : list string) : result (list string) :=
  match updates with
  | [] => Ok commands
  | (want, have) :: rest =>
      commands ← render_update update_password want have commands;
      render_updates update_password rest commands
  end.

Definition map_obj_to_commands (updates : list (dict * dict))
    (module : AnsibleModule) : result (list string) :=
  render_updates (update_password (params module)) updates [].

(** ** The parser: parse_role, parse_sshkey, parse_privilege *)

Definition parse_role (data : string) : pyval :=
  of_option PStr (search_token "role " data).

Definition parse_sshkey (data : string) : pyval :=
  of_option PStr (search_rest_of_line "sshkey " data).

Definition parse_privilege (data : string) : result pyval :=
  match search_token "privilege " data with
  | Some tok => z ← py_int tok; Ok (PInt z)
  | None => Ok PNone
  end.

(** ** update_objects *)

(** [next((i for i in have if i['username'] == entry['username']), None)] *)
Fixpoint find_have (have : list dict) (entry : dict) : result (option dict) :=
  match have with
  | [] => Ok None
  | i :: rest =>
      iu ← getitem i "username";
      eu ← getitem entry "username";
      if py_eq iu eu then Ok (Some i) else find_have rest entry
  end.

(** The loop [for key, value in iteritems(entry)]; [items] is the iteration
    sequence, whose order Python leaves open (every append adds the same
    pair, so only which [KeyError] surfaces first depends on it). *)
Fixpoint update_fields (items : list (string * pyval)) (entry item : dict)
    (updates : list (dict * dict)) : result (list (dict * dict)) :=
  match items with
  | [] => Ok updates
  | (key, value) :: rest =>
      if truthy value then
        iv ← getitem item key;
        if negb (py_eq value iv)
        then update_fields rest entry item (updates ++ [(entry, item)])
        else update_fields rest entry item updates
      else update_fields rest entry item updates
  end.

Definition update_entry (have : list dict) (entry : dict)
    (updates : list (dict * dict)) : result (list (dict * dict)) :=
  item ← find_have have entry;
  st ← getitem entry "state";
  match item with
  | None =>
      if py_eq st (PStr "present") then Ok (updates ++ [(entry, ∅)])
      else Ok updates
  | Some item =>
      if dict_truthy item
      then update_fields (map_to_list entry) entry item updates
      else Ok updates
  end.

Fixpoint update_loop (want have : list dict) (updates : list (dict * dict))
  : result (list (dict * dict)) :=
  match want with
  | [] => Ok updates
  | entry :: rest =>
      updates ← update_entry have entry updates;
      update_loop rest have updates
  end.

Definition update_objects (want have : list dict) : result (list (dict * dict)) :=
  update_loop want have [].

(** ** get_param_value and map_params_to_obj *)

Definition get_param_value (key : string) (item : dict) (module : AnsibleModule)
  : result pyval :=
  value ← (if negb (truthy (dict_get item key))
           then params_getitem (params module) key
           else
             let value_type := argument_spec_type key in
             let type_checker := _CHECK_ARGUMENT_TYPES_DISPATCHER module value_type in
             v ← getitem item key;
             type_checker v;;
             getitem item key);
  match validator_for key with
  | Some validator =>
      if truthy value then validator value module;; Ok value else Ok value
  | None => Ok value
  end.

(** The body of the loop [for item in collection]. *)
Definition populate (item : dict) (module : AnsibleModule) : result dict :=
  let get_value key item := get_param_value key item module in
  v ← get_value "password" item;   let item := <["password" := v]> item in
  v ← get_value "nopassword" item; let item := <["nopassword" := v]> item in
  v ← get_value "privilege" item;  let item := <["privilege" := v]> item in
  v ← get_value "role" item;       let item := <["role" := v]> item in
  v ← get_value "sshkey" item;     let item := <["sshkey" := v]> item in
  v ← get_value "state" item;      let item := <["state" := v]> item in
  Ok item.

Fixpoint populate_all (collection : list dict) (module : AnsibleModule)
    (objects : list dict) : result (list dict) :=
  match collection with
  | [] => Ok objects
  | item :: rest =>
      item ← populate item module;
      populate_all rest module (objects ++ [item])
  end.

(** The loop [for item in users]. *)
Fixpoint collect (items : list user_item) (collection : list dict)
  : result (list dict) :=
  match items with
  | [] => Ok collection
  | Bare name :: rest =>
      collect rest (collection ++ [({["username" := name]} : dict)])
  | Hash d :: rest =>
      match d !! "username" with
      | None => Raise (FailJson "username is required")
      | Some _ => collect rest (collection ++ [d])
      end
  end.

Definition map_params_to_obj (module : AnsibleModule) : result (list dict) :=
  let p := params module in
  let no_username := negb (truthy (of_option PStr (username p))) in
  match users p with
  | None | Some [] =>
      if (no_username && purge p)%bool then Ok []
      else if no_username then Raise (FailJson "username is required")
      else populate_all [{["username" := of_option PStr (username p)]}] module []
  | Some items =>
      collection ← collect items [];
      populate_all collection module []
  end.

(** ** map_config_to_obj and main

    The per-user pattern [r'username %s .+$' % user] interpolates the
    username without escaping it.  For a username free of regex
    metacharacters the pattern is a literal followed by [.+$] and the scan is
    written out; for any other username the result is whatever Python's
    engine computes, which stays a parameter of the development. *)

Definition regex_special (c : ascii) : bool :=
  existsb (Ascii.eqb c) (list_ascii_of_string ".^$*+?{}[]\|()").

Fixpoint plain_pattern (s : string) : bool :=
  match s with
  | EmptyString => true
  | String c s' => (negb (regex_special c) && plain_pattern s')%bool
  end.

(** [m.group(1)] of [r'^username (\S+)'] on one line. *)
Definition declared_user (line : string) : option string :=
  match strip_prefix "username " line with
  | Some rest => let tok := span_nonspace rest in
                 if nonempty tok then Some tok else None
  | None => None
  end.

(** [re.findall(r'^username (\S+)', data, re.M)] *)
Definition findall_usernames (data : string) : list string :=
  omap declared_user (split_lines data).

(** The match of [lit + '.+$'] in one line: from the first place where [lit]
    is followed by at least one character to the end of the line. *)
Fixpoint match_in_line (lit line : string) : option string :=
  let here :=
    match strip_prefix lit line with
    | Some rest => if nonempty rest then Some line else None
    | None => None
    end in
  match here with
  | Some m => Some m
  | None => match line with
            | EmptyString => None
            | String _ line' => match_in_line lit line'
            end
  end.

(** One call of [load_config]. *)
Inductive call : Type :=
| LoadConfig (commands : list string) (commit : bool).

(** What [module.exit_json] reports. *)
Record ExitJson : Type := {
  changed : bool;
  commands : list string;
  diff : option pyval;
  session_name : option pyval
}.

Section Device.

(** [re.findall(pattern, data, re.M)] of Python's engine, used for the
    patterns built from a username with metacharacters. *)
Variable re_findall : string -> string -> result (list string).

(** [get_config(module, flags=['section username'])] *)
Variable get_config : string.

(** [load_config(module, commands, commit=commit)] *)
Variable load_config : list string -> bool -> dict.

(** [re.findall(r'username %s .+$' % user, data, re.M)] *)
Definition findall_user (user data : string) : result (list string) :=
  if plain_pattern user
  then Ok (omap (match_in_line ("username " +:+ user +:+ " ")) (split_lines data))
  else re_findall ("username " +:+ user +:+ " .+$") data.

(** The body of the loop [for user in set(match)]. *)
Definition parse_user (user data : string) : result dict :=
  cfg ← findall_user user data;
  let cfg := join_lines cfg in
  let nopassword := PBool (contains "nopassword" cfg) in
  let sshkey := parse_sshkey cfg in
  privilege ← parse_privilege cfg;
  let role := parse_role cfg in
  Ok (<["username" := PStr user]> (<["state" := PStr "present"]>
     (<["nopassword" := nopassword]> (<["password" := PNone]>
     (<["sshkey" := sshkey]> (<["privilege" := privilege]>
     (<["role" := role]> (∅ : dict)))))))).

Fixpoint parse_users (users : list string) (data : string)
    (instances : list dict) : result (list dict) :=
  match users with
  | [] => Ok instances
  | user :: rest =>
      obj ← parse_user user data;
      parse_users rest data (instances ++ [obj])
  end.

(** [set(match)] is iterated in an order Python does not fix; the
    embedding takes the one of [remove_dups]. *)
Definition map_config_to_obj (data : string) : result (list dict) :=
  match findall_usernames data with
  | [] => Ok []
  | found => parse_users (remove_dups found) data []
  end.

(** [[x['username'] for x in objs]] *)
Fixpoint usernames_of (objs : list dict) : result (list pyval) :=
  match objs with
  | [] => Ok []
  | x :: rest =>
      u ← getitem x "username";
      us ← usernames_of rest;
      Ok (u :: us)
  end.

(** [set(xs)], with Python's equality on the elements. *)
Fixpoint py_set (xs : list pyval) : list pyval :=
  match xs with
  | [] => []
  | x :: rest =>
      if existsb (py_eq x) rest then py_set rest else x :: py_set rest
  end.

(** [set(have_users).difference(want_users)] *)
Definition difference (have_users want_users : list pyval) : list pyval :=
  List.filter (fun h => negb (existsb (py_eq h) want_users)) (py_set have_users).

(** The loop of the purge block. *)
Fixpoint purge_loop (items : list pyval) (commands : list string) : list string :=
  match items with
  | [] => commands
  | item :: rest =>
      if negb (py_eq item (PStr "admin"))
      then purge_loop rest (commands ++ ["no username " +:+ py_str item])
      else purge_loop rest commands
  end.

Definition purge_block (want have : list dict) (commands : list string)
  : result (list string) :=
  want_users ← usernames_of want;
  have_users ← usernames_of have;
  Ok (purge_loop (difference have_users want_users) commands).

(** [main] up to [result['commands'] = commands]. *)
Definition main_commands (module : AnsibleModule) : result (list string) :=
  want ← map_params_to_obj module;
  have ← map_config_to_obj get_config;
  updates ← update_objects want have;
  commands ← map_obj_to_commands updates module;
  if purge (params module) then purge_block want have commands
  else Ok commands.

(** [main]: the calls of [load_config] made, and how the run ends. *)
Definition main (module : AnsibleModule) : list call * result ExitJson :=
  match main_commands module with
  | Raise e => ([], Raise e)
  | Ok commands =>
      if existsb (String.eqb "no username admin") commands
      then ([], Raise (FailJson "cannot delete the `admin` account"))
      else
        match commands with
        | [] => ([], Ok {| changed := false; commands := commands;
                           diff := None; session_name := None |})
        | _ :: _ =>
            let commit := negb (check_mode module) in
            let response := load_config commands commit in
            ([LoadConfig commands commit],
             Ok {| changed := true; commands := commands;
                   diff := if (truthy (dict_get response "diff")
                               && _diff module)%bool
                           then Some (dict_get response "diff") else None;
                   session_name := Some (dict_get response "session") |})
        end
  end.

End Device.

(** ** Definitions used in the statements *)

(** The same module with another type-check dispatcher. *)
Definition with_dispatcher (module : AnsibleModule)
    (dispatcher : string -> pyval -> result pyval) : AnsibleModule :=
  {| params := params module; check_mode := check_mode module;
     _diff := _diff module; _CHECK_ARGUMENT_TYPES_DISPATCHER := dispatcher |}.

(** Line 341 of [main]: [map_obj_to_commands(update_objects(want, have), module)]. *)
Definition reconcile (want have : list dict) (module : AnsibleModule)
  : result (list string) :=
  updates ← update_objects want have;
  map_obj_to_commands updates module.

(** The keys of a user record. *)
Definition record_keys : list string :=
  ["username"; "password"; "nopassword"; "privilege"; "role"; "sshkey"; "state"].

(** A want record: it has a username and a state, and no key outside the
    record. *)
Definition want_record (d : dict) : Prop :=
  is_Some (d !! "username") /\ is_Some (d !! "state")
  /\ forall key, is_Some (d !! key) -> In key record_keys.

(** A have record: every key of the record is there. *)
Definition have_record (d : dict) : Prop :=
  forall key, In key record_keys -> is_Some (d !! key).

(** ** Concrete tasks *)

(** A dispatcher whose checkers accept every value. *)
Definition accept_all : string -> pyval -> result pyval := fun _ v => Ok v.

(** An engine that compiles no pattern; the examples below only declare
    usernames without metacharacters, for which it is never consulted. *)
Definition no_engine : string -> string -> result (list string) :=
  fun pattern _ => Raise (ReError pattern).

Definition no_response : list string -> bool -> dict := fun _ _ => ∅.

Definition task (p : Params) : AnsibleModule :=
  {| params := p; check_mode := false; _diff := false;
     _CHECK_ARGUMENT_TYPES_DISPATCHER := accept_all |}.

(** [eos_user: purge=yes] and the task without any argument. *)
Definition params_purge_only (purge : bool) : Params :=
  {| users := None; username := None; password := None; nopassword := None;
     update_password := "always"; privilege := None; role := None;
     sshkey := None; purge := purge; state := "present" |}.

(** [eos_user: username=bob privilege=<level>] *)
Definition params_bob_privilege (level : Z) : Params :=
  {| users := None; username := Some "bob"; password := None; nopassword := None;
     update_password := "always"; privilege := Some level; role := None;
     sshkey := None; purge := false; state := "present" |}.

(** [eos_user: username=bob password=x update_password=<policy> state=<state>] *)
Definition params_bob_password (policy state : string) : Params :=
  {| users := None; username := Some "bob"; password := Some "x";
     nopassword := None; update_password := policy; privilege := None;
     role := None; sshkey := None; purge := false; state := state |}.

(** [eos_user: username=<name> state=absent] *)
Definition params_absent (name : string) : Params :=
  {| users := None; username := Some name; password := None; nopassword := None;
     update_password := "always"; privilege := None; role := None;
     sshkey := None; purge := false; state := "absent" |}.

(** A user record written field by field. *)
Definition record (username password nopassword privilege role sshkey state : pyval)
  : dict :=
  <["username" := username]> (<["password" := password]>
  (<["nopassword" := nopassword]> (<["privilege" := privilege]>
  (<["role" := role]> (<["sshkey" := sshkey]> (<["state" := state]> ∅)))))).

(** ** Closed forms of the loops

    What one iteration of each loop contributes, written as a pure function;
    the lemmas of the next part prove that the loops of the source compute
    exactly these on well-formed records. *)

(** ['username %s %s' % (u, x)] *)
Definition field_command (u : pyval) (x : string) : string :=
  "username " +:+ py_str u +:+ " " +:+ x.

Definition removal_command (u : pyval) : string :=
  "no username " +:+ py_str u.

(** The command of one field check of the renderer. *)
Definition field_commands (want have : dict) (field keyword : string) : list string :=
  if needs_update want have field
  then [field_command (dict_get want "username")
          (keyword +:+ py_str (dict_get want field))]
  else [].

Definition secret_commands (update_password : string) (want have : dict)
  : list string :=
  if (String.eqb update_password "always" || negb (dict_truthy have))%bool
  then field_commands want have "password" "secret "
  else [].

Definition nopassword_commands (want have : dict) : list string :=
  if needs_update want have "nopassword"
  then [field_command (dict_get want "username") "nopassword"]
  else [].

(** The commands [map_obj_to_commands] appends for the pair [(want, have)]. *)
Definition commands_of_pair (update_password : string) (want have : dict)
  : list string :=
  if py_eq (dict_get want "state") (PStr "absent")
  then [removal_command (dict_get want "username")]
  else field_commands want have "role" "role "
       ++ field_commands want have "privilege" "privilege "
       ++ secret_commands update_password want have
       ++ field_commands want have "sshkey" "sshkey "
       ++ nopassword_commands want have.

(** The fields of [entry] that make [update_objects] append a pair. *)
Definition differing_fields (entry item : dict) : list (string * pyval) :=
  List.filter
    (fun kv => (truthy (snd kv) && negb (py_eq (snd kv) (dict_get item (fst kv))))%bool)
    (map_to_list entry).

(** The first have record with the username [u]. *)
Definition lookup_have (have : list dict) (u : pyval) : option dict :=
  List.find (fun i => py_eq (dict_get i "username") u) have.

(** The pairs [update_objects] appends for [entry]. *)
Definition pairs_of_entry (have : list dict) (entry : dict) : list (dict * dict) :=
  match lookup_have have (dict_get entry "username") with
  | None =>
      if py_eq (dict_get entry "state") (PStr "present") then [(entry, ∅)] else []
  | Some item => replicate (length (differing_fields entry item)) (entry, item)
  end.

(** [s] holds no newline. *)
Definition one_line (s : string) : Prop :=
  Forall (fun c => c <> LF) (list_ascii_of_string s).

(** [line] is one of the lines of [data]: a stretch without newline that
    starts at the beginning of the text or after a newline and ends at the
    end of the text or before a newline. *)
Definition is_line_of (data line : string) : Prop :=
  exists before after,
    data = before +:+ line +:+ after
    /\ (before = "" \/ exists b, before = b +:+ String LF "")
    /\ (after = "" \/ exists a, after = String LF a)
    /\ one_line line.

(** No character of [s] is matched by [\s]. *)
Definition spaceless (s : string) : Prop :=
  Forall (fun c => is_space c = false) (list_ascii_of_string s).




(** The have record the parser yields for ["username bob secret sha512 abc"]. *)
Definition have_bob : dict :=
  record (PStr "bob") PNone (PBool false) PNone PNone PNone (PStr "present").

(** The text the parser calls [cfg] for a username without metacharacters:
    the matches of the per-user pattern, joined by newlines. *)
Definition user_block (user data : string) : string :=
  join_lines (omap (match_in_line ("username " +:+ user +:+ " ")) (split_lines data)).

(** The record the parser builds from [cfg]. *)
Definition parsed_record (user cfg : string) (privilege : pyval) : dict :=
  <["username" := PStr user]> (<["state" := PStr "present"]>
  (<["nopassword" := PBool (contains "nopassword" cfg)]> (<["password" := PNone]>
  (<["sshkey" := parse_sshkey cfg]> (<["privilege" := privilege]>
  (<["role" := parse_role cfg]> (∅ : dict))))))).

(** ** Definitions used in the further properties *)

(** The dictionary an entry of [users] enters the collection as. *)
Definition item_dict (it : user_item) : dict :=
  match it with
  | Bare name => {["username" := name]}
  | Hash d => d
  end.

(** The keys [map_params_to_obj] fills in on every item. *)
Definition populated_keys : list string :=
  ["password"; "nopassword"; "privilege"; "role"; "sshkey"; "state"].

(** [eos_user: users=<items> purge=<purge>] *)
Definition params_users (items : list user_item) (purge : bool) : Params :=
  {| users := Some items; username := None; password := None; nopassword := None;
     update_password := "always"; privilege := None; role := None;
     sshkey := None; purge := purge; state := "present" |}.

(** A dispatcher in the manner of [ansible.module_utils.basic]: the [int]
    checker returns an integer as it is, calls [int] on a string, so that a
    string that is no integer literal raises [ValueError], and raises
    [TypeError] on a value of any other type; the checkers of the other
    types let every value pass. *)
Definition coercing_dispatcher : string -> pyval -> result pyval :=
  fun value_type v =>
    if String.eqb value_type "int"
    then match v with
         | PInt _ | PBool _ => Ok v
         | PStr s => z ← py_int s; Ok (PInt z)
         | PNone => Raise (TypeError "cannot be converted to an int")
         end
    else Ok v.

(** [eos_user: username=<name>] *)
Definition params_username (name : string) : Params :=
  {| users := None; username := Some name; password := None; nopassword := None;
     update_password := "always"; privilege := None; role := None;
     sshkey := None; purge := false; state := "present" |}.

(** The command a set field contributes when an account is created. *)
Definition creation_command (entry : dict) (field text : string) : list string :=
  if truthy (dict_get entry field)
  then [field_command (dict_get entry "username") text]
  else [].

(** * Properties *)

(** ** Strings *)

Lemma append_cancel_l (p a b : string) : p +:+ a = p +:+ b -> a = b.
Proof.
  induction p as [|c p IH]; simpl; intros H; [assumption|].
  injection H as H. auto.
Qed.

(** ** The input normalizer *)

Arguments validate_privilege : simpl never.

Lemma get_param_value_default key item module :
  truthy (dict_get item key) = false ->
  get_param_value key item module =
    (value ← params_getitem (params module) key;
     match validator_for key with
     | Some validator =>
         if truthy value then validator value module;; Ok value else Ok value
     | None => Ok value
     end).
Proof. intros H. unfold get_param_value. now rewrite H. Qed.

Lemma dict_get_delete (item : dict) key : dict_get (delete key item) key = PNone.
Proof. unfold dict_get. now rewrite lookup_delete_eq. Qed.

Lemma dict_get_insert (item : dict) key v : dict_get (<[key := v]> item) key = v.
Proof. unfold dict_get. now rewrite lookup_insert_eq. Qed.

Lemma validator_for_cases key :
  validator_for key = Some validate_privilege /\ key = "privilege"
  \/ validator_for key = None.
Proof.
  unfold validator_for.
  destruct (String.eqb_spec ("validate_" +:+ key) "validate_privilege") as [E|E];
    [left|now right].
  split; [reflexivity|]. now apply (append_cancel_l "validate_").
Qed.

Lemma validate_privilege_int z module :
  validate_privilege (PInt z) module =
    if ((1 <=? z) && (z <=? 15))%bool then Ok tt
    else Raise (FailJson ("privilege must be between 1 and 15, got " +:+ pretty z)).
Proof. unfold validate_privilege. simpl. now destruct ((1 <=? z) && (z <=? 15))%bool. Qed.

(** C8: with neither [username] nor [users] supplied, normalization fails with
    "username is required" when purge is off and returns the empty want list
    when purge is on. *)
Theorem empty_input_handling module :
  users (params module) = None \/ users (params module) = Some [] ->
  username (params module) = None \/ username (params module) = Some "" ->
  map_params_to_obj module =
    if purge (params module) then Ok []
    else Raise (FailJson "username is required").
Proof.
  intros Hu Hn. unfold map_params_to_obj.
  assert (E : truthy (of_option PStr (username (params module))) = false)
    by (destruct Hn as [-> | ->]; reflexivity).
  rewrite E. simpl.
  destruct Hu as [-> | ->]; now destruct (purge (params module)).
Qed.

Lemma empty_input_handling_witness :
  map_params_to_obj (task (params_purge_only false))
    = Raise (FailJson "username is required")
  /\ map_params_to_obj (task (params_purge_only true)) = Ok [].
Proof.
  split.
  - apply (empty_input_handling (task (params_purge_only false))); left; reflexivity.
  - apply (empty_input_handling (task (params_purge_only true))); left; reflexivity.
Defined.

(** C9: a field whose explicit value is falsy is normalized exactly as if it
    were missing: the process-wide default replaces it, its type checker is
    not consulted, and a falsy value never reaches a validator, so that an
    explicit privilege of 0 never raises the range error. *)
Theorem falsy_values_are_unset key item module :
  truthy (dict_get item key) = false ->
  get_param_value key item module = get_param_value key (delete key item) module
  /\ (forall dispatcher,
        get_param_value key item (with_dispatcher module dispatcher)
        = get_param_value key item module)
  /\ (forall value,
        get_param_value key item module = Ok value ->
        params_getitem (params module) key = Ok value)
  /\ (forall value,
        params_getitem (params module) key = Ok value -> truthy value = false ->
        get_param_value key item module = Ok value)
  /\ get_param_value "privilege" (<["privilege" := PInt 0]> item) module
       <> Raise (FailJson "privilege must be between 1 and 15, got 0")
  /\ (privilege (params module) = None \/ privilege (params module) = Some 0 ->
      get_param_value "privilege" (<["privilege" := PInt 0]> item) module
        = Ok (of_option PInt (privilege (params module)))).
Proof.
  intros H. repeat split.
  - rewrite (get_param_value_default key item) by assumption.
    now rewrite get_param_value_default by now rewrite dict_get_delete.
  - intros d. rewrite !get_param_value_default; auto. simpl.
    destruct (params_getitem (params module) key); simpl; auto.
    destruct (validator_for_cases key) as [[-> _]| ->]; auto.
  - intros value. rewrite get_param_value_default by assumption.
    destruct (params_getitem (params module) key) as [v|e]; simpl; [|discriminate].
    destruct (validator_for key) as [validator|]; [|congruence].
    destruct (truthy v); [|congruence].
    destruct (validator v module); simpl; [congruence|discriminate].
  - intros value Hv Hf. rewrite get_param_value_default; auto.
    rewrite Hv. simpl. rewrite Hf. now destruct (validator_for key).
  - rewrite get_param_value_default by now rewrite dict_get_insert.
    simpl. destruct (privilege (params module)) as [z|]; simpl; [|discriminate].
    destruct (z =? 0) eqn:Ez; simpl; [discriminate|].
    rewrite validate_privilege_int.
    destruct ((1 <=? z) && (z <=? 15))%bool; simpl; [discriminate|].
    intros E. injection E as E. simpl in E.
    change "0" with (pretty 0) in E.
    apply (inj pretty z 0) in E. subst z. discriminate.
  - intros Hp. rewrite get_param_value_default by now rewrite dict_get_insert.
    simpl. now destruct Hp as [-> | ->].
Qed.

Lemma falsy_values_are_unset_witness :
  let item : dict :=
    <["username" := PStr "bob"]> (<["privilege" := PInt 0]>
    (<["nopassword" := PBool false]> (<["role" := PStr ""]> ∅))) in
  let module := task (params_purge_only false) in
  truthy (dict_get item "privilege") = false
  /\ truthy (dict_get item "nopassword") = false
  /\ get_param_value "privilege" item module = Ok PNone
  /\ get_param_value "nopassword" item module
       = get_param_value "nopassword" (delete "nopassword" item) module.
Proof.
  intros item module.
  split; [reflexivity|]. split; [reflexivity|]. split.
  - destruct (falsy_values_are_unset "privilege" item module eq_refl)
      as (_ & _ & H & _).
    apply H; reflexivity.
  - destruct (falsy_values_are_unset "nopassword" item module eq_refl)
      as (H & _).
    exact H.
Defined.

(** Integers other than 0 outside 1..15 are rejected with the fatal error
    that names the value. *)
Lemma privilege_out_of_range_rejected z item module :
  item !! "privilege" = Some (PInt z) ->
  z <> 0 -> ~ (1 <= z <= 15) ->
  (exists v, _CHECK_ARGUMENT_TYPES_DISPATCHER module "int" (PInt z) = Ok v) ->
  get_param_value "privilege" item module
    = Raise (FailJson ("privilege must be between 1 and 15, got " +:+ pretty z)).
Proof.
  intros Hi Hz Hr [v Hc]. unfold get_param_value, dict_get, getitem.
  rewrite Hi. simpl.
  assert (Ez : (z =? 0) = false) by lia. rewrite Ez. simpl.
  change (argument_spec_type "privilege") with "int". rewrite Hc. simpl.
  rewrite Ez. simpl. rewrite validate_privilege_int.
  assert (Er : ((1 <=? z) && (z <=? 15))%bool = false).
  { apply andb_false_iff. destruct (Z.leb_spec 1 z); [right|left]; lia. }
  now rewrite Er.
Qed.

(** The same on the process-wide default, which is what a record without a
    privilege of its own inherits. *)
Lemma privilege_default_out_of_range_rejected z item module :
  truthy (dict_get item "privilege") = false ->
  privilege (params module) = Some z ->
  z <> 0 -> ~ (1 <= z <= 15) ->
  get_param_value "privilege" item module
    = Raise (FailJson ("privilege must be between 1 and 15, got " +:+ pretty z)).
Proof.
  intros Hi Hp Hz Hr. rewrite get_param_value_default by assumption.
  simpl. rewrite Hp. simpl.
  assert (Ez : (z =? 0) = false) by lia. rewrite Ez. simpl.
  rewrite validate_privilege_int.
  assert (Er : ((1 <=? z) && (z <=? 15))%bool = false).
  { apply andb_false_iff. destruct (Z.leb_spec 1 z); [right|left]; lia. }
  now rewrite Er.
Qed.

(** Integers in 1..15 pass normalization unchanged. *)
Lemma privilege_in_range_accepted z item module :
  item !! "privilege" = Some (PInt z) ->
  1 <= z <= 15 ->
  (exists v, _CHECK_ARGUMENT_TYPES_DISPATCHER module "int" (PInt z) = Ok v) ->
  get_param_value "privilege" item module = Ok (PInt z).
Proof.
  intros Hi Hr [v Hc]. unfold get_param_value, dict_get, getitem.
  rewrite Hi. simpl.
  assert (Ez : (z =? 0) = false) by lia. rewrite Ez. simpl.
  change (argument_spec_type "privilege") with "int". rewrite Hc. simpl.
  rewrite Ez. simpl. rewrite validate_privilege_int.
  assert (Er : ((1 <=? z) && (z <=? 15))%bool = true).
  { apply andb_true_iff. split; lia. }
  now rewrite Er.
Qed.

(** C6: the privilege 0 lies outside 1..15 and yet passes normalization:
    [eos_user: username=bob privilege=0] yields a want record with
    privilege 0 and no error. *)
Theorem privilege_zero_passes_normalization :
  map_params_to_obj (task (params_bob_privilege 0))
    = Ok [record (PStr "bob") PNone PNone (PInt 0) PNone PNone (PStr "present")].
Proof. vm_compute. reflexivity. Qed.

(** ** The command renderer *)

Lemma getitem_get (d : dict) key v : d !! key = Some v -> getitem d key = Ok v.
Proof. unfold getitem. now intros ->. Qed.

Lemma dict_get_lookup (d : dict) key v : d !! key = Some v -> dict_get d key = v.
Proof. unfold dict_get. now intros ->. Qed.

Lemma needs_update_getitem want have field :
  needs_update want have field = true ->
  getitem want field = Ok (dict_get want field).
Proof.
  unfold needs_update, dict_get, getitem.
  destruct (want !! field); simpl; [reflexivity|discriminate].
Qed.

Lemma needs_update_truthy want have field :
  needs_update want have field = true -> truthy (dict_get want field) = true.
Proof. unfold needs_update. now intros [H _]%andb_true_iff. Qed.

Lemma render_update_closed_form update_password want have commands :
  is_Some (want !! "username") -> is_Some (want !! "state") ->
  render_update update_password want have commands
    = Ok (commands ++ commands_of_pair update_password want have).
Proof.
  intros [u Hu] [st Hst].
  unfold render_update, commands_of_pair, add.
  rewrite (getitem_get _ _ _ Hst), (getitem_get _ _ _ Hu).
  rewrite (dict_get_lookup _ _ _ Hst), (dict_get_lookup _ _ _ Hu).
  simpl. destruct (py_eq st (PStr "absent")); simpl; [reflexivity|].
  unfold secret_commands, nopassword_commands, field_commands.
  rewrite (dict_get_lookup _ _ _ Hu).
  destruct (needs_update want have "role") eqn:Er;
    [rewrite (needs_update_getitem _ _ _ Er)|]; simpl;
  (destruct (needs_update want have "privilege") eqn:Ep;
    [rewrite (needs_update_getitem _ _ _ Ep)|]; simpl);
  (destruct (needs_update want have "password") eqn:Es;
    [rewrite (needs_update_getitem _ _ _ Es)|]; simpl);
  destruct (String.eqb update_password "always" || negb (dict_truthy have))%bool;
    simpl;
  (destruct (needs_update want have "sshkey") eqn:Ek;
    [rewrite (needs_update_getitem _ _ _ Ek)|]; simpl);
  (destruct (needs_update want have "nopassword") eqn:En;
    [rewrite (needs_update_getitem _ _ _ En); cbn [mbind result_bind];
     rewrite (needs_update_truthy _ _ _ En)|];
    simpl);
  rewrite <- ?app_assoc; simpl; rewrite ?app_nil_r; reflexivity.
Qed.

Lemma render_updates_closed_form update_password updates commands :
  Forall (fun wh => is_Some (fst wh !! "username") /\ is_Some (fst wh !! "state"))
    updates ->
  render_updates update_password updates commands
    = Ok (commands
          ++ concat (List.map (fun wh => commands_of_pair update_password (fst wh) (snd wh))
                       updates)).
Proof.
  intros H. revert commands.
  induction H as [|[want have] updates [Hu Hs] _ IH]; intros commands; simpl.
  - now rewrite app_nil_r.
  - rewrite render_update_closed_form by assumption. simpl.
    rewrite IH. now rewrite <- app_assoc.
Qed.

(** ** The diff engine *)

Lemma want_record_username entry : want_record entry -> is_Some (entry !! "username").
Proof. now intros [H _]. Qed.

Lemma want_record_state entry : want_record entry -> is_Some (entry !! "state").
Proof. now intros (_ & H & _). Qed.

Lemma have_record_username item : have_record item -> is_Some (item !! "username").
Proof. intros H. apply H. simpl. auto. Qed.

Lemma dict_truthy_lookup (d : dict) key : is_Some (d !! key) -> dict_truthy d = true.
Proof.
  intros [v Hv]. unfold dict_truthy. apply negb_true_iff, bool_decide_eq_false.
  intros ->. now rewrite lookup_empty in Hv.
Qed.

Lemma find_have_closed_form have entry :
  Forall have_record have -> is_Some (entry !! "username") ->
  find_have have entry = Ok (lookup_have have (dict_get entry "username")).
Proof.
  intros Hh [u Hu]. rewrite (dict_get_lookup _ _ _ Hu).
  induction Hh as [|i have Hi _ IH]; simpl; [reflexivity|].
  destruct (have_record_username _ Hi) as [iu Hiu].
  rewrite (getitem_get _ _ _ Hiu), (getitem_get _ _ _ Hu). simpl.
  rewrite (dict_get_lookup _ _ _ Hiu).
  now destruct (py_eq iu u).
Qed.

Lemma lookup_have_In have u item :
  lookup_have have u = Some item ->
  In item have /\ py_eq (dict_get item "username") u = true.
Proof. apply find_some. Qed.

Lemma update_fields_closed_form items entry item updates :
  (forall key value, In (key, value) items -> truthy value = true ->
                     is_Some (item !! key)) ->
  update_fields items entry item updates
    = Ok (updates
          ++ replicate
               (length (List.filter
                  (fun kv => (truthy (snd kv)
                              && negb (py_eq (snd kv) (dict_get item (fst kv))))%bool)
                  items))
               (entry, item)).
Proof.
  revert updates.
  induction items as [|[key value] items IH]; intros updates H; simpl.
  - now rewrite app_nil_r.
  - assert (H' : forall key value, In (key, value) items -> truthy value = true ->
                                   is_Some (item !! key))
      by (intros k v Hin; apply H; now right).
    destruct (truthy value) eqn:Et; simpl; [|now apply IH].
    destruct (H key value (or_introl eq_refl) Et) as [iv Hiv].
    rewrite (getitem_get _ _ _ Hiv), (dict_get_lookup _ _ _ Hiv). simpl.
    destruct (py_eq value iv); simpl; [now apply IH|].
    rewrite IH by assumption. now rewrite <- app_assoc.
Qed.

Lemma update_entry_closed_form have entry updates :
  Forall have_record have -> want_record entry ->
  update_entry have entry updates = Ok (updates ++ pairs_of_entry have entry).
Proof.
  intros Hh Hw. unfold update_entry, pairs_of_entry.
  rewrite find_have_closed_form by auto using want_record_username. simpl.
  destruct (want_record_state _ Hw) as [st Hst].
  rewrite (getitem_get _ _ _ Hst), (dict_get_lookup _ _ _ Hst). simpl.
  destruct (lookup_have have (dict_get entry "username")) as [item|] eqn:El.
  - apply lookup_have_In in El as [Hin _].
    assert (Hi : have_record item)
      by (exact (proj1 (List.Forall_forall _ _) Hh _ Hin)).
    rewrite (dict_truthy_lookup _ _ (have_record_username _ Hi)).
    apply update_fields_closed_form.
    intros key value Hkv _. apply Hi. destruct Hw as (_ & _ & Hk). apply Hk.
    exists value. apply elem_of_map_to_list, list_elem_of_In, Hkv.
  - destruct (py_eq st (PStr "present")); [reflexivity|now rewrite app_nil_r].
Qed.

Lemma update_loop_closed_form want have updates :
  Forall have_record have -> Forall want_record want ->
  update_loop want have updates
    = Ok (updates ++ concat (List.map (pairs_of_entry have) want)).
Proof.
  intros Hh Hw. revert updates.
  induction Hw as [|entry want He _ IH]; intros updates; simpl.
  - now rewrite app_nil_r.
  - rewrite update_entry_closed_form by assumption. simpl.
    rewrite IH. now rewrite <- app_assoc.
Qed.

Lemma pairs_of_entry_fst have entry wh :
  In wh (pairs_of_entry have entry) -> fst wh = entry.
Proof.
  unfold pairs_of_entry.
  destruct (lookup_have have (dict_get entry "username")).
  - intros H%list_elem_of_In%elem_of_replicate. now destruct H as [-> _].
  - destruct (py_eq (dict_get entry "state") (PStr "present")); simpl;
      [intros [<-|[]]; reflexivity | intros []].
Qed.

(** The whole of line 341 on well-formed records. *)
Lemma reconcile_closed_form want have module :
  Forall have_record have -> Forall want_record want ->
  reconcile want have module
    = Ok (concat (List.map
            (fun wh => commands_of_pair (update_password (params module))
                         (fst wh) (snd wh))
            (concat (List.map (pairs_of_entry have) want)))).
Proof.
  intros Hh Hw. unfold reconcile, update_objects, map_obj_to_commands.
  rewrite update_loop_closed_form by assumption. simpl.
  rewrite render_updates_closed_form; [reflexivity|].
  apply List.Forall_forall. intros wh Hin.
  apply in_concat in Hin as (ps & Hps & Hin).
  apply in_map_iff in Hps as (entry & <- & He).
  apply pairs_of_entry_fst in Hin as ->.
  rewrite List.Forall_forall in Hw.
  split; [apply want_record_username | apply want_record_state]; auto.
Qed.

(** ** Removal, password policy, multi-emission and idempotence *)

Lemma field_command_inj u x y : field_command u x = field_command u y -> x = y.
Proof.
  unfold field_command. intros H.
  now do 3 apply append_cancel_l in H.
Qed.

Lemma concat_map_replicate {A B} (f : A -> list B) k x :
  concat (List.map f (replicate k x)) = concat (replicate k (f x)).
Proof. induction k as [|k IH]; simpl; [reflexivity|]. now rewrite IH. Qed.

Lemma find_have_lookup have entry item :
  Forall have_record have -> is_Some (entry !! "username") ->
  find_have have entry = Ok item ->
  lookup_have have (dict_get entry "username") = item.
Proof.
  intros Hh Hu. rewrite find_have_closed_form by assumption. congruence.
Qed.

(** C7: a want record matching a have record in which exactly [k] fields
    carry a non-empty want value that differs from have makes the diff engine
    append exactly [k] copies of the pair (want, have), and the renderer then
    emits the commands of that pair [k] times over. *)
Theorem per_field_pair_multi_emission
    have entry item k update_password updates commands :
  Forall have_record have -> want_record entry ->
  find_have have entry = Ok (Some item) ->
  length (differing_fields entry item) = k ->
  update_entry have entry updates = Ok (updates ++ replicate k (entry, item))
  /\ exists single,
       render_update update_password entry item [] = Ok single
       /\ render_updates update_password (replicate k (entry, item)) commands
          = Ok (commands ++ concat (replicate k single)).
Proof.
  intros Hh Hw Hf Hk. split.
  - rewrite update_entry_closed_form by assumption.
    unfold pairs_of_entry.
    rewrite (find_have_lookup _ _ _ Hh (want_record_username _ Hw) Hf).
    now rewrite Hk.
  - exists (commands_of_pair update_password entry item). split.
    + now rewrite render_update_closed_form
        by auto using want_record_username, want_record_state.
    + rewrite render_updates_closed_form.
      * now rewrite (concat_map_replicate
                       (fun wh => commands_of_pair update_password (fst wh) (snd wh))).
      * apply List.Forall_forall. intros wh H%list_elem_of_In%elem_of_replicate.
        destruct H as [-> _]. simpl.
        auto using want_record_username, want_record_state.
Qed.

Lemma record_have_record u p n pr r s st : have_record (record u p n pr r s st).
Proof.
  intros key Hin. simpl in Hin.
  repeat (destruct Hin as [<-|Hin]; [eexists; reflexivity|]). destruct Hin.
Qed.

Lemma record_want_record u p n pr r s st : want_record (record u p n pr r s st).
Proof.
  split; [eexists; reflexivity|]. split; [eexists; reflexivity|].
  intros key [v Hv]. unfold record in Hv. simpl.
  repeat (apply lookup_insert_Some in Hv as [[<- _]|[_ Hv]]; [tauto|]).
  now rewrite lookup_empty in Hv.
Qed.

Lemma per_field_pair_multi_emission_witness :
  let entry :=
    record (PStr "bob") (PStr "x") PNone (PInt 7) (PStr "ops") PNone (PStr "present") in
  length (differing_fields entry have_bob) = 3%nat
  /\ update_entry [have_bob] entry [] = Ok (replicate 3 (entry, have_bob))
  /\ render_updates "on_create" (replicate 3 (entry, have_bob)) []
     = Ok ["username bob role ops"; "username bob privilege 7";
           "username bob role ops"; "username bob privilege 7";
           "username bob role ops"; "username bob privilege 7"].
Proof.
  intros entry.
  assert (Hk : length (differing_fields entry have_bob) = 3%nat)
    by (vm_compute; reflexivity).
  destruct (per_field_pair_multi_emission [have_bob] entry have_bob 3
              "on_create" [] []) as [H1 (single & H2 & H3)].
  - constructor; [apply record_have_record|constructor].
  - apply record_want_record.
  - vm_compute. reflexivity.
  - exact Hk.
  - split; [exact Hk|]. split; [exact H1|].
    rewrite H3.
    assert (E : Ok single = Ok ["username bob role ops"; "username bob privilege 7"])
      by (rewrite <- H2; vm_compute; reflexivity).
    injection E as ->. reflexivity.
Defined.

Lemma differing_fields_state entry item st :
  entry !! "state" = Some st -> truthy st = true ->
  py_eq st (dict_get item "state") = false ->
  In ("state", st) (differing_fields entry item).
Proof.
  intros He Ht Hne. unfold differing_fields. apply filter_In. split.
  - apply list_elem_of_In, elem_of_map_to_list, He.
  - simpl. now rewrite Ht, Hne.
Qed.

Lemma In_replicate_pos {A} (x : A) k : (0 < k)%nat -> In x (replicate k x).
Proof. destruct k; [lia|]. intros _. now left. Qed.

(** C2, as the code has it: a want record with state=absent yields the
    removal command of its username when a have record of that username
    exists; when none exists the diff engine appends no pair for it, and
    so the renderer emits nothing. *)
Theorem absent_record_removal want have module entry :
  Forall have_record have -> Forall want_record want ->
  In entry want -> entry !! "state" = Some (PStr "absent") ->
  (forall item,
     find_have have entry = Ok (Some item) ->
     dict_get item "state" = PStr "present" ->
     exists cmds, reconcile want have module = Ok cmds
                  /\ In (removal_command (dict_get entry "username")) cmds)
  /\ (find_have have entry = Ok None ->
      forall updates, update_entry have entry updates = Ok updates).
Proof.
  intros Hh Hw Hin Hst.
  assert (He : want_record entry) by (exact (proj1 (List.Forall_forall _ _) Hw _ Hin)).
  split.
  - intros item Hf Hp. eexists. split; [now apply reconcile_closed_form|].
    apply in_concat.
    exists (commands_of_pair (update_password (params module)) entry item). split.
    + apply in_map_iff. exists (entry, item). split; [reflexivity|].
      apply in_concat. exists (pairs_of_entry have entry).
      split; [now apply in_map|].
      unfold pairs_of_entry.
      rewrite (find_have_lookup _ _ _ Hh (want_record_username _ He) Hf).
      apply In_replicate_pos.
      assert (Hd : In ("state", PStr "absent") (differing_fields entry item))
        by (apply differing_fields_state; [assumption|reflexivity|now rewrite Hp]).
      destruct (differing_fields entry item); [destruct Hd|simpl; lia].
    + unfold commands_of_pair. rewrite (dict_get_lookup _ _ _ Hst). now left.
  - intros Hf updates. rewrite update_entry_closed_form by assumption.
    unfold pairs_of_entry.
    rewrite (find_have_lookup _ _ _ Hh (want_record_username _ He) Hf).
    rewrite (dict_get_lookup _ _ _ Hst). simpl. now rewrite app_nil_r.
Qed.

Lemma absent_record_removal_witness :
  let entry := record (PStr "bob") PNone PNone PNone PNone PNone (PStr "absent") in
  (exists cmds, reconcile [entry] [have_bob] (task (params_absent "bob")) = Ok cmds
                /\ In "no username bob" cmds)
  /\ update_entry [] entry [] = Ok [].
Proof.
  intros entry. split.
  - apply (absent_record_removal [entry] [have_bob] (task (params_absent "bob")) entry)
      with (item := have_bob).
    + constructor; [apply record_have_record|constructor].
    + constructor; [apply record_want_record|constructor].
    + now left.
    + reflexivity.
    + vm_compute. reflexivity.
    + reflexivity.
  - apply (absent_record_removal [entry] [] (task (params_absent "bob")) entry).
    + constructor.
    + constructor; [apply record_want_record|constructor].
    + now left.
    + reflexivity.
    + reflexivity.
Defined.

(** C2, counterexample: [eos_user: username=bob state=absent] on a device
    without an account bob produces no command at all, hence no removal
    command for bob. *)
Lemma absent_without_have_emits_nothing :
  let entry := record (PStr "bob") PNone PNone PNone PNone PNone (PStr "absent") in
  let module := task (params_absent "bob") in
  map_params_to_obj module = Ok [entry]
  /\ entry !! "state" = Some (PStr "absent")
  /\ (exists cmds, reconcile [entry] [] module = Ok cmds
                   /\ ~ In (removal_command (PStr "bob")) cmds)
  /\ main_commands no_engine "" module = Ok [].
Proof.
  intros entry module.
  split; [vm_compute; reflexivity|]. split; [reflexivity|]. split.
  - exists []. split; [vm_compute; reflexivity|]. intros [].
  - vm_compute. reflexivity.
Qed.

Lemma dict_truthy_false (d : dict) : dict_truthy d = false <-> d = ∅.
Proof.
  unfold dict_truthy. rewrite negb_false_iff. apply bool_decide_eq_true.
Qed.

Ltac other_field H :=
  simpl in H; destruct H as [H|[]]; apply field_command_inj in H; discriminate H.

(** C5, as the code has it: for a want record that is not absent, with a set
    password, against an existing have record (whose password is null, as
    the parser leaves it) the renderer emits the secret command exactly when
    [update_password] is "always"; against the empty have of a new account
    it emits the secret command under either policy. *)
Theorem password_update_policy update_password want have u st pw :
  want !! "username" = Some u ->
  want !! "state" = Some st -> py_eq st (PStr "absent") = false ->
  want !! "password" = Some pw -> truthy pw = true ->
  dict_get have "password" = PNone ->
  exists cmds,
    render_update update_password want have [] = Ok cmds
    /\ (have <> ∅ ->
        (In (field_command u ("secret " +:+ py_str pw)) cmds
         <-> update_password = "always"))
    /\ (have = ∅ -> In (field_command u ("secret " +:+ py_str pw)) cmds).
Proof.
  intros Hu Hst Hne Hpw Ht Hh.
  assert (Hn : needs_update want have "password" = true).
  { unfold needs_update. rewrite Hh, (dict_get_lookup _ _ _ Hpw), Ht.
    now destruct pw. }
  exists (commands_of_pair update_password want have).
  split; [now rewrite render_update_closed_form by (eexists; eassumption)|].
  unfold commands_of_pair.
  rewrite (dict_get_lookup _ _ _ Hst), Hne.
  unfold secret_commands, nopassword_commands, field_commands.
  rewrite Hn, (dict_get_lookup _ _ _ Hu), (dict_get_lookup _ _ _ Hpw).
  split.
  - intros Hd.
    assert (Et : dict_truthy have = true).
    { destruct (dict_truthy have) eqn:E; [reflexivity|].
      now apply dict_truthy_false in E. }
    rewrite Et. simpl. rewrite orb_false_r.
    destruct (String.eqb_spec update_password "always") as [E|E].
    + split; [auto|]. intros _. rewrite !in_app_iff. right. right. left. now left.
    + split; [|contradiction]. rewrite !in_app_iff.
      intros [H|[H|[H|[H|H]]]].
      * destruct (needs_update want have "role"); [other_field H|destruct H].
      * destruct (needs_update want have "privilege"); [other_field H|destruct H].
      * destruct H.
      * destruct (needs_update want have "sshkey"); [other_field H|destruct H].
      * destruct (needs_update want have "nopassword"); [other_field H|destruct H].
  - intros ->. rewrite orb_true_r. rewrite !in_app_iff. right. right. left. now left.
Qed.

Lemma password_update_policy_witness :
  let want :=
    record (PStr "bob") (PStr "x") PNone PNone PNone PNone (PStr "present") in
  (exists cmds, render_update "always" want have_bob [] = Ok cmds
                /\ In "username bob secret x" cmds)
  /\ (exists cmds, render_update "on_create" want have_bob [] = Ok cmds
                   /\ ~ In "username bob secret x" cmds)
  /\ (exists cmds, render_update "on_create" want ∅ [] = Ok cmds
                   /\ In "username bob secret x" cmds).
Proof.
  intros want. split; [|split].
  - destruct (password_update_policy "always" want have_bob
                (PStr "bob") (PStr "present") (PStr "x"))
      as (cmds & H & Hiff & _); try reflexivity.
    exists cmds. split; [exact H|]. apply Hiff; [discriminate|reflexivity].
  - destruct (password_update_policy "on_create" want have_bob
                (PStr "bob") (PStr "present") (PStr "x"))
      as (cmds & H & Hiff & _); try reflexivity.
    exists cmds. split; [exact H|]. intros Hin.
    apply Hiff in Hin; [discriminate Hin|discriminate].
  - destruct (password_update_policy "on_create" want ∅
                (PStr "bob") (PStr "present") (PStr "x"))
      as (cmds & H & _ & Hnew); try reflexivity.
    exists cmds. split; [exact H|]. now apply Hnew.
Defined.

(** C5, counterexample: [eos_user: username=bob password=x state=absent]
    under the policy "always", on a device that has the account bob: the
    want record has a set password and matches a have record, and the
    renderer emits the removal command and no secret command. *)
Lemma absent_record_gets_no_secret :
  let want :=
    record (PStr "bob") (PStr "x") PNone PNone PNone PNone (PStr "absent") in
  let module := task (params_bob_password "always" "absent") in
  map_params_to_obj module = Ok [want]
  /\ map_config_to_obj no_engine "username bob secret sha512 abc" = Ok [have_bob]
  /\ render_update "always" want have_bob [] = Ok ["no username bob"]
  /\ main_commands no_engine "username bob secret sha512 abc" module
     = Ok ["no username bob"; "no username bob"]
  /\ ~ In "username bob secret x" ["no username bob"; "no username bob"].
Proof.
  intros want module. repeat split; try (vm_compute; reflexivity).
  intros [H|[H|[]]]; discriminate H.
Qed.




(** ** The record parser *)

Lemma append_nil_l (s : string) : "" +:+ s = s.
Proof. reflexivity. Qed.

Lemma append_cons c (a b : string) : String c a +:+ b = String c (a +:+ b).
Proof. reflexivity. Qed.

Lemma strip_prefix_spec p s rest :
  strip_prefix p s = Some rest <-> s = p +:+ rest.
Proof.
  revert s. induction p as [|a p IH]; intros s; simpl.
  - rewrite append_nil_l. split; congruence.
  - rewrite append_cons. destruct s as [|b s]; [split; discriminate|].
    destruct (Ascii.eqb_spec a b) as [->|Hne].
    + rewrite IH. split; [now intros ->|now intros [= ->]].
    + split; [discriminate|]. intros [= -> _]. now contradiction Hne.
Qed.

Lemma contains_here p s rest : strip_prefix p s = Some rest -> contains p s = true.
Proof. intros H. destruct s; simpl; now rewrite H. Qed.

Lemma contains_spec p s :
  contains p s = true <-> exists pre post, s = pre +:+ p +:+ post.
Proof.
  split.
  - induction s as [|c s IH]; simpl.
    + destruct (strip_prefix p "") as [rest|] eqn:E; [|discriminate].
      intros _. apply strip_prefix_spec in E. now exists "", rest.
    + destruct (strip_prefix p (String c s)) as [rest|] eqn:E.
      * intros _. apply strip_prefix_spec in E. now exists "", rest.
      * intros (pre & post & ->)%IH. now exists (String c pre), post.
  - intros (pre & post & ->). induction pre as [|c pre IH].
    + rewrite append_nil_l. apply (contains_here _ _ post).
      now apply strip_prefix_spec.
    + rewrite append_cons. simpl.
      destruct (strip_prefix p (String c (pre +:+ p +:+ post))); [reflexivity|].
      exact IH.
Qed.

Lemma parse_user_inv re user data obj :
  parse_user re user data = Ok obj ->
  exists lines privilege,
    findall_user re user data = Ok lines
    /\ parse_privilege (join_lines lines) = Ok privilege
    /\ obj = parsed_record user (join_lines lines) privilege.
Proof.
  unfold parse_user. destruct (findall_user re user data) as [lines|e]; simpl;
    [|discriminate].
  destruct (parse_privilege (join_lines lines)) as [p|e] eqn:Ep; simpl;
    [|discriminate].
  intros [= <-]. now exists lines, p.
Qed.

Lemma parse_users_spec re users data instances objs :
  parse_users re users data instances = Ok objs ->
  exists new, objs = instances ++ new
              /\ Forall2 (fun user obj => parse_user re user data = Ok obj) users new.
Proof.
  revert instances. induction users as [|user users IH]; intros instances; simpl.
  - intros [= <-]. exists []. now rewrite app_nil_r.
  - destruct (parse_user re user data) as [obj|e] eqn:E; simpl; [|discriminate].
    intros H. apply IH in H as (new & -> & HF).
    exists (obj :: new). rewrite <- app_assoc. split; [reflexivity|].
    now constructor.
Qed.

Lemma parse_users_total re users data instances :
  (forall user, In user users -> exists obj, parse_user re user data = Ok obj) ->
  exists new, parse_users re users data instances = Ok (instances ++ new).
Proof.
  revert instances. induction users as [|user users IH]; intros instances H; simpl.
  - exists []. now rewrite app_nil_r.
  - destruct (H user (or_introl eq_refl)) as [obj ->]. simpl.
    destruct (IH (instances ++ [obj])) as [new ->]; [intros u Hu; apply H; now right|].
    exists (obj :: new). now rewrite <- app_assoc.
Qed.

Lemma parse_users_raise re users data instances user e :
  In user users -> parse_user re user data = Raise e ->
  exists e', parse_users re users data instances = Raise e'.
Proof.
  revert instances. induction users as [|u users IH]; intros instances Hin He;
    [destruct Hin|]. simpl.
  destruct (parse_user re u data) as [obj|e0] eqn:E; simpl; [|now exists e0].
  destruct Hin as [->|Hin]; [congruence|]. now apply IH.
Qed.

Lemma map_config_to_obj_spec re data objs :
  map_config_to_obj re data = Ok objs ->
  Forall2 (fun user obj => parse_user re user data = Ok obj)
    (remove_dups (findall_usernames data)) objs.
Proof.
  unfold map_config_to_obj. destruct (findall_usernames data) as [|u us] eqn:E.
  - intros [= <-]. constructor.
  - intros H. apply parse_users_spec in H as (new & -> & HF). exact HF.
Qed.

Lemma In_remove_dups (x : string) l : In x (remove_dups l) <-> In x l.
Proof. rewrite <- !list_elem_of_In. apply elem_of_remove_dups. Qed.

Lemma Forall2_In_r {A B} (P : A -> B -> Prop) l k y :
  Forall2 P l k -> In y k -> exists x, In x l /\ P x y.
Proof.
  induction 1 as [|x y' l k Hxy _ IH]; intros Hin; [destruct Hin|].
  destruct Hin as [->|Hin]; [exists x; split; [now left|assumption]|].
  destruct (IH Hin) as (x' & Hx & HP). exists x'. split; [now right|assumption].
Qed.

Lemma Forall2_In_l {A B} (P : A -> B -> Prop) l k :
  Forall2 P l k -> Forall2 (fun x y => In x l /\ P x y) l k.
Proof.
  induction 1 as [|x y l k Hxy _ IH]; constructor.
  - split; [now left|assumption].
  - eapply Forall2_impl; [exact IH|]. intros x' y' [Hin HP].
    split; [now right|assumption].
Qed.

Lemma parsed_record_have_record user cfg privilege :
  have_record (parsed_record user cfg privilege).
Proof.
  intros key Hin. simpl in Hin.
  repeat (destruct Hin as [<-|Hin]; [eexists; reflexivity|]). destruct Hin.
Qed.

Lemma py_int_cases s : (exists z, py_int s = Ok z) \/ py_int s = Raise (ValueError s).
Proof.
  unfold py_int.
  match goal with |- context [match ?p with Some _ => _ | None => _ end] =>
    destruct p as [z|] end; [left; now exists z|now right].
Qed.

Lemma parse_user_plain re user data :
  plain_pattern user = true ->
  parse_user re user data =
    (privilege ← parse_privilege (user_block user data);
     Ok (parsed_record user (user_block user data) privilege)).
Proof. intros Hp. unfold parse_user, findall_user. now rewrite Hp. Qed.

Lemma parse_users_raise_with (P : exn -> Prop) re users data instances e :
  (forall user e, In user users -> parse_user re user data = Raise e -> P e) ->
  parse_users re users data instances = Raise e -> P e.
Proof.
  revert instances. induction users as [|u users IH]; intros instances H; simpl;
    [discriminate|].
  destruct (parse_user re u data) as [obj|e0] eqn:E; simpl.
  - apply IH. intros user e' Hin. apply H. now right.
  - intros [= <-]. apply (H u); [now left|assumption].
Qed.

(** C4, as the code has it: on a blob whose usernames carry no regex
    metacharacter the parser returns the empty list when no line declares an
    account, and otherwise one record per distinct username, with a null
    privilege where no privilege token stands, as long as every token after
    the privilege keyword is an integer literal; a token that is not makes
    the parser raise [ValueError]. *)
Theorem parser_fails_only_on_privilege_literal re data :
  Forall (fun user => plain_pattern user = true) (findall_usernames data) ->
  (findall_usernames data = [] -> map_config_to_obj re data = Ok [])
  /\ (Forall (fun user => forall tok,
                search_token "privilege " (user_block user data) = Some tok ->
                exists z, py_int tok = Ok z)
        (findall_usernames data) ->
      exists objs,
        map_config_to_obj re data = Ok objs
        /\ Forall2 (fun user obj =>
             exists privilege,
               obj = parsed_record user (user_block user data) privilege
               /\ parse_privilege (user_block user data) = Ok privilege
               /\ (search_token "privilege " (user_block user data) = None ->
                   privilege = PNone))
             (remove_dups (findall_usernames data)) objs)
  /\ (forall user tok,
        In user (findall_usernames data) ->
        search_token "privilege " (user_block user data) = Some tok ->
        py_int tok = Raise (ValueError tok) ->
        exists tok', map_config_to_obj re data = Raise (ValueError tok')).
Proof.
  intros Hplain. rewrite List.Forall_forall in Hplain. split; [|split].
  - unfold map_config_to_obj. now intros ->.
  - intros Hint. rewrite List.Forall_forall in Hint.
    assert (Hok : forall user, In user (remove_dups (findall_usernames data)) ->
                  exists obj, parse_user re user data = Ok obj).
    { intros user Hu. apply (proj1 (In_remove_dups _ _)) in Hu.
      rewrite parse_user_plain by now apply Hplain. unfold parse_privilege.
      destruct (search_token "privilege " (user_block user data)) as [tok|] eqn:E.
      - destruct (Hint user Hu tok E) as [z ->]. eexists. reflexivity.
      - eexists. reflexivity. }
    assert (E : exists objs, map_config_to_obj re data = Ok objs).
    { unfold map_config_to_obj.
      destruct (findall_usernames data) as [|u us] eqn:Eu; [now exists []|].
      destruct (parse_users_total re (remove_dups (u :: us)) data [] Hok) as [new ->].
      now exists new. }
    destruct E as [objs E]. exists objs. split; [assumption|].
    apply map_config_to_obj_spec, Forall2_In_l in E.
    eapply Forall2_impl; [exact E|]. intros user obj [Hu Hp].
    apply (proj1 (In_remove_dups _ _)) in Hu.
    rewrite parse_user_plain in Hp by now apply Hplain.
    destruct (parse_privilege (user_block user data)) as [p|e] eqn:Ep;
      [|discriminate Hp].
    injection Hp as <-. exists p. split; [reflexivity|]. split; [reflexivity|].
    intros Hn. unfold parse_privilege in Ep. rewrite Hn in Ep. congruence.
  - intros user tok Hu Ht Hi.
    assert (Er : parse_user re user data = Raise (ValueError tok)).
    { rewrite parse_user_plain by now apply Hplain. unfold parse_privilege.
      now rewrite Ht, Hi. }
    unfold map_config_to_obj.
    destruct (findall_usernames data) as [|u us] eqn:Eu; [destruct Hu|].
    rewrite <- Eu in *.
    destruct (parse_users_raise re (remove_dups (findall_usernames data)) data []
                user _ (proj2 (In_remove_dups _ _) Hu) Er) as [e He].
    rewrite He.
    apply (parse_users_raise_with (fun e => exists tok', e = ValueError tok'))
      in He; [destruct He as [tok' ->]; now exists tok'|].
    intros user' e' Hu'. apply (proj1 (In_remove_dups _ _)) in Hu'.
    rewrite parse_user_plain by now apply Hplain.
    unfold parse_privilege.
    destruct (search_token "privilege " (user_block user' data)) as [tok'|];
      [|discriminate].
    destruct (py_int_cases tok') as [[z ->]| ->]; simpl; [discriminate|].
    intros [= <-]. now exists tok'.
Qed.

Lemma parser_fails_only_on_privilege_literal_witness :
  let data := "username alice privilege 7 role ops" +:+ String LF
              "username alice sshkey AAAAB3 key" in
  map_config_to_obj no_engine ""%string = Ok []
  /\ (exists objs, map_config_to_obj no_engine data = Ok objs
                   /\ length objs = 1%nat)
  /\ (exists tok, map_config_to_obj no_engine "username bob privilege 1x"
                  = Raise (ValueError tok)).
Proof.
  intros data. split; [|split].
  - apply (parser_fails_only_on_privilege_literal no_engine "");
      [vm_compute; constructor|vm_compute; reflexivity].
  - assert (Eu : findall_usernames data = ["alice"; "alice"])
      by (vm_compute; reflexivity).
    assert (Et : search_token "privilege " (user_block "alice" data) = Some "7")
      by (vm_compute; reflexivity).
    destruct (parser_fails_only_on_privilege_literal no_engine data)
      as (_ & H & _).
    { rewrite Eu. repeat constructor. }
    destruct H as (objs & E & HF).
    + rewrite Eu. repeat constructor; intros tok Ht; rewrite Et in Ht;
        injection Ht as <-; now exists 7.
    + exists objs. split; [exact E|].
      apply Forall2_length in HF. rewrite <- HF, Eu. vm_compute. reflexivity.
  - assert (Eu : findall_usernames "username bob privilege 1x" = ["bob"])
      by (vm_compute; reflexivity).
    destruct (parser_fails_only_on_privilege_literal no_engine
                "username bob privilege 1x") as (_ & _ & H).
    { rewrite Eu. repeat constructor. }
    apply (H "bob" "1x"); [rewrite Eu; now left|vm_compute; reflexivity..].
Defined.

(** C4, counterexample: the blob ["username bob privilege abc"] has a
    non-integer token after the privilege keyword, and the parser raises
    the [ValueError] of [int('abc')] instead of returning a null privilege. *)
Lemma non_integer_privilege_raises :
  search_token "privilege " "username bob privilege abc" = Some "abc"
  /\ parse_privilege "username bob privilege abc" = Raise (ValueError "abc")
  /\ map_config_to_obj no_engine "username bob privilege abc"
     = Raise (ValueError "abc").
Proof. repeat split; vm_compute; reflexivity. Qed.

(** ** The purge block and the protected account *)

Lemma pretty_N_go_not_letter x s s' :
  s <> String "a" s' -> pretty_N_go x s <> String "a" s'.
Proof.
  revert s. induction (N.lt_wf_0 x) as [x _ IH]. intros s Hs.
  destruct (N.eq_dec x 0%N) as [->|Hx]; [exact Hs|].
  rewrite pretty_N_go_step by lia.
  apply IH; [apply N.div_lt; lia|].
  unfold pretty_N_char. repeat case_match; discriminate.
Qed.

Lemma pretty_not_admin (z : Z) : pretty z <> "admin".
Proof.
  destruct z as [|p|p]; [discriminate| |discriminate].
  change (pretty (Z.pos p)) with (pretty_N_go (N.pos p) "").
  now apply pretty_N_go_not_letter.
Qed.

Lemma py_str_admin v : py_str v = "admin" -> v = PStr "admin".
Proof.
  destruct v as [|[|]|z|s]; simpl; try discriminate.
  - intros H. now apply pretty_not_admin in H.
  - now intros ->.
Qed.

Lemma purge_loop_app items commands :
  purge_loop items commands = commands ++ purge_loop items [].
Proof.
  revert commands. induction items as [|item items IH]; intros commands; simpl.
  - now rewrite app_nil_r.
  - destruct (py_eq item (PStr "admin")); simpl; [apply IH|].
    rewrite IH, (IH ["no username " +:+ py_str item]). now rewrite <- app_assoc.
Qed.

Lemma purge_loop_spares_admin items :
  ~ In "no username admin" (purge_loop items []).
Proof.
  induction items as [|item items IH]; simpl; [tauto|].
  destruct (py_eq item (PStr "admin")) eqn:E; simpl; [exact IH|].
  rewrite purge_loop_app. intros [H|H]%in_app_iff; [|now apply IH].
  destruct H as [H|[]].
  apply (append_cancel_l "no username " _ "admin"), py_str_admin in H.
  subst item. discriminate E.
Qed.

(** C1: the purge block never appends the removal command of [admin], and
    whenever the command list of a run contains that command, however it got
    there, [main] ends in the fatal error before any call of [load_config]. *)
Theorem protected_account_invariant re get_config load_config module :
  (forall want have commands out,
     purge_block want have commands = Ok out ->
     exists added, out = commands ++ added /\ ~ In "no username admin" added)
  /\ (forall commands,
        main_commands re get_config module = Ok commands ->
        In "no username admin" commands ->
        main re get_config load_config module
          = ([], Raise (FailJson "cannot delete the `admin` account"))).
Proof.
  split.
  - intros want have commands out. unfold purge_block.
    destruct (usernames_of want) as [wu|e]; simpl; [|discriminate].
    destruct (usernames_of have) as [hu|e]; simpl; [|discriminate].
    intros [= <-]. exists (purge_loop (difference hu wu) []).
    split; [apply purge_loop_app|apply purge_loop_spares_admin].
  - intros commands Hc Hin. unfold main. rewrite Hc.
    assert (E : existsb (String.eqb "no username admin") commands = true).
    { apply existsb_exists. exists "no username admin".
      split; [assumption|apply String.eqb_refl]. }
    now rewrite E.
Qed.

Lemma protected_account_invariant_witness :
  let config := "username admin privilege 15 role network-admin secret sha512 abc" in
  let module := task (params_absent "admin") in
  main_commands no_engine config module = Ok ["no username admin"]
  /\ main no_engine config no_response module
     = ([], Raise (FailJson "cannot delete the `admin` account"))
  /\ (exists added,
        ["username bob role ops"; "no username carol"]
          = ["username bob role ops"] ++ added
        /\ ~ In "no username admin" added).
Proof.
  intros config module.
  assert (E : main_commands no_engine config module = Ok ["no username admin"])
    by (vm_compute; reflexivity).
  split; [exact E|].
  destruct (protected_account_invariant no_engine config no_response module)
    as [Hpurge Hfail].
  split.
  - apply (Hfail ["no username admin"]); [exact E|now left].
  - apply (Hpurge
             [record (PStr "bob") PNone PNone PNone PNone PNone (PStr "present")]
             [have_bob;
              record (PStr "admin") PNone (PBool false) (PInt 15) PNone PNone
                (PStr "present");
              record (PStr "carol") PNone (PBool false) PNone PNone PNone
                (PStr "present")]
             ["username bob role ops"]).
    vm_compute. reflexivity.
Defined.

(** ** Further consequences *)

(** A privilege in 1..15 that differs from the device's reaches the rendered
    command unchanged. *)
Lemma privilege_round_trips update_password want have u st z :
  want !! "username" = Some u ->
  want !! "state" = Some st -> py_eq st (PStr "absent") = false ->
  want !! "privilege" = Some (PInt z) -> 1 <= z <= 15 ->
  py_eq (PInt z) (dict_get have "privilege") = false ->
  exists cmds,
    render_update update_password want have [] = Ok cmds
    /\ In (field_command u ("privilege " +:+ pretty z)) cmds.
Proof.
  intros Hu Hst Hne Hp Hz Hd.
  exists (commands_of_pair update_password want have).
  split; [now rewrite render_update_closed_form by (eexists; eassumption)|].
  unfold commands_of_pair. rewrite (dict_get_lookup _ _ _ Hst), Hne.
  assert (Hn : needs_update want have "privilege" = true).
  { unfold needs_update. rewrite (dict_get_lookup _ _ _ Hp), Hd. simpl.
    rewrite andb_true_r. apply negb_true_iff. lia. }
  rewrite !in_app_iff. right. left.
  unfold field_commands.
  rewrite Hn, (dict_get_lookup _ _ _ Hu), (dict_get_lookup _ _ _ Hp). now left.
Qed.

Lemma map_config_to_obj_records re data objs :
  map_config_to_obj re data = Ok objs ->
  Forall (fun obj => have_record obj /\ dict_get obj "password" = PNone
                     /\ dict_get obj "state" = PStr "present") objs.
Proof.
  intros H. apply map_config_to_obj_spec in H.
  apply List.Forall_forall. intros obj Hin.
  destruct (Forall2_In_r _ _ _ _ H Hin) as (user & _ & Hp).
  apply parse_user_inv in Hp as (lines & privilege & _ & _ & ->).
  split; [apply parsed_record_have_record|]. split; reflexivity.
Qed.

Lemma main_commands_reconcile re config module :
  main_commands re config module =
    (want ← map_params_to_obj module;
     have ← map_config_to_obj re config;
     commands ← reconcile want have module;
     if purge (params module) then purge_block want have commands
     else Ok commands).
Proof.
  unfold main_commands, reconcile.
  destruct (map_params_to_obj module) as [want|e]; simpl; [|reflexivity].
  destruct (map_config_to_obj re config) as [have|e]; simpl; [|reflexivity].
  now destruct (update_objects want have).
Qed.

Lemma py_eq_None_r v : truthy v = true -> py_eq v PNone = false.
Proof. now destruct v. Qed.

Lemma commands_of_pair_secret want have :
  py_eq (dict_get want "state") (PStr "absent") = false ->
  truthy (dict_get want "password") = true ->
  dict_get have "password" = PNone ->
  commands_of_pair "always" want have <> [].
Proof.
  intros Hst Hpw Hh H. unfold commands_of_pair in H. rewrite Hst in H.
  assert (Hn : needs_update want have "password" = true)
    by (unfold needs_update; now rewrite Hh, Hpw, py_eq_None_r).
  unfold secret_commands, field_commands at 3 in H. rewrite Hn in H. simpl in H.
  apply (f_equal (@length string)) in H. rewrite !length_app in H.
  simpl in H. lia.
Qed.

(** Under the policy "always" a want record that is to be present and has a
    set password never reconciles to the empty command list against parsed
    have records, whose password is always null. *)
Lemma always_policy_resends_password have module entry :
  Forall (fun obj => have_record obj /\ dict_get obj "password" = PNone
                     /\ dict_get obj "state" = PStr "present") have ->
  want_record entry ->
  entry !! "state" = Some (PStr "present") ->
  truthy (dict_get entry "password") = true ->
  update_password (params module) = "always" ->
  reconcile [entry] have module <> Ok [].
Proof.
  intros Eh Hw Hst Hpw Hpol.
  assert (Hh : Forall have_record have)
    by (eapply List.Forall_impl; [|exact Eh]; now intros obj [H _]).
  assert (Hl : Forall want_record [entry]) by (constructor; [assumption|constructor]).
  rewrite (reconcile_closed_form _ _ _ Hh Hl), Hpol.
  cbn [List.map concat]. rewrite app_nil_r. unfold pairs_of_entry.
  assert (Hna : py_eq (dict_get entry "state") (PStr "absent") = false)
    by now rewrite (dict_get_lookup _ _ _ Hst).
  destruct (lookup_have have (dict_get entry "username")) as [item|] eqn:El.
  - apply lookup_have_In in El as [Hin _].
    rewrite List.Forall_forall in Eh. destruct (Eh item Hin) as (_ & Hi & _).
    assert (Hd : exists pw, In ("password", pw) (differing_fields entry item)).
    { unfold dict_get in Hpw.
      destruct (entry !! "password") as [pw|] eqn:Ep; [|discriminate Hpw].
      exists pw. unfold differing_fields. apply filter_In. split.
      - apply (proj1 (list_elem_of_In _ _)), (proj2 (elem_of_map_to_list _ _ _)), Ep.
      - cbn [fst snd]. simpl in Hpw. now rewrite Hi, Hpw, py_eq_None_r. }
    destruct Hd as [pw Hd].
    destruct (differing_fields entry item) as [|kv rest]; [destruct Hd|].
    cbn [length replicate List.map concat fst snd].
    intros [= H]. apply app_eq_nil in H as [H _].
    now apply commands_of_pair_secret in H.
  - rewrite (dict_get_lookup _ _ _ Hst).
    cbn [py_eq String.eqb Ascii.eqb Bool.eqb List.map concat fst snd].
    rewrite app_nil_r. intros [= H].
    now apply commands_of_pair_secret in H.
Qed.

(** The task [eos_user: username=bob password=x] under the policy "always"
    never reaches the empty command list, whatever configuration the device
    shows. *)
Lemma password_always_resent re config :
  main_commands re config (task (params_bob_password "always" "present")) <> Ok [].
Proof.
  rewrite main_commands_reconcile.
  replace (map_params_to_obj (task (params_bob_password "always" "present")))
    with (Ok [record (PStr "bob") (PStr "x") PNone PNone PNone PNone (PStr "present")])
    by (vm_compute; reflexivity).
  cbn [mbind result_bind].
  destruct (map_config_to_obj re config) as [have|e] eqn:Eh;
    cbn [mbind result_bind]; [|discriminate].
  apply map_config_to_obj_records in Eh.
  change (purge (params (task (params_bob_password "always" "present"))))
    with false.
  destruct (reconcile _ have _) as [commands|e] eqn:Er;
    cbn [mbind result_bind]; [|discriminate].
  intros [= ->]. revert Er.
  apply always_policy_resends_password; try assumption.
  - apply record_want_record.
  - reflexivity.
  - reflexivity.
  - reflexivity.
Qed.

(** The purge scenario: alice is wanted, the device has alice, admin and
    carol; only carol is removed and the run commits. *)
Example purge_scenario :
  let config := "username alice privilege 1 nopassword" +:+ String LF
                "username admin privilege 15 role network-admin nopassword"
                +:+ String LF "username carol privilege 1 nopassword" in
  let module :=
    task {| users := Some [Bare (PStr "alice")]; username := None;
            password := None; nopassword := None; update_password := "always";
            privilege := None; role := None; sshkey := None; purge := true;
            state := "present" |} in
  fst (main no_engine config no_response module)
    = [LoadConfig ["no username carol"] true].
Proof. vm_compute. reflexivity. Qed.

(** * Further properties *)

(** Closed equations are settled by evaluation. *)
Ltac by_evaluation :=
  match goal with
  | |- ?lhs = ?rhs => vm_cast_no_check (@eq_refl _ rhs)
  end.

(** ** The normalizer: shape and order of its output *)

Lemma populate_spec item module obj :
  populate item module = Ok obj ->
  (forall key, In key populated_keys -> is_Some (obj !! key))
  /\ (forall key, ~ In key populated_keys -> obj !! key = item !! key).
Proof.
  unfold populate.
  repeat (match goal with
          | |- context [get_param_value ?k ?i ?m] =>
              destruct (get_param_value k i m); simpl; [|discriminate]
          end).
  intros [= <-]. split.
  - intros key Hin. simpl in Hin.
    repeat (destruct Hin as [<-|Hin];
            [rewrite ?lookup_insert_eq, ?lookup_insert_ne by discriminate;
             try (eexists; reflexivity)|]);
      try destruct Hin.
    all: repeat (rewrite lookup_insert_ne by discriminate);
      rewrite lookup_insert_eq; eexists; reflexivity.
  - intros key Hn. simpl in Hn.
    repeat (rewrite lookup_insert_ne by (intros <-; apply Hn; tauto)).
    reflexivity.
Qed.

Lemma populate_all_spec collection module objects objs :
  populate_all collection module objects = Ok objs ->
  exists new, objs = objects ++ new
              /\ Forall2 (fun item obj => populate item module = Ok obj) collection new.
Proof.
  revert objects. induction collection as [|item rest IH]; intros objects; simpl.
  - intros [= <-]. exists []. now rewrite app_nil_r.
  - destruct (populate item module) as [obj|e] eqn:E; simpl; [|discriminate].
    intros H. apply IH in H as (new & -> & HF).
    exists (obj :: new). rewrite <- app_assoc. split; [reflexivity|].
    now constructor.
Qed.

Lemma collect_spec items collection out :
  collect items collection = Ok out ->
  out = collection ++ List.map item_dict items
  /\ Forall (fun it => is_Some (item_dict it !! "username")) items.
Proof.
  revert collection. induction items as [|it items IH]; intros collection; simpl.
  - intros [= <-]. now rewrite app_nil_r.
  - destruct it as [name|d].
    + intros H. apply IH in H as [-> HF]. rewrite <- app_assoc. split; [reflexivity|].
      constructor; [|assumption]. simpl. rewrite lookup_singleton_eq. eauto.
    + destruct (d !! "username") as [u|] eqn:Eu; [|discriminate].
      intros H. apply IH in H as [-> HF]. rewrite <- app_assoc. split; [reflexivity|].
      constructor; [|assumption]. simpl. rewrite Eu. eauto.
Qed.

Lemma collect_missing_username items collection d :
  In (Hash d) items -> d !! "username" = None ->
  collect items collection = Raise (FailJson "username is required").
Proof.
  revert collection. induction items as [|it items IH]; intros collection Hin Hd;
    [destruct Hin|].
  destruct Hin as [->|Hin]; simpl.
  - now rewrite Hd.
  - destruct it as [name|d']; [now apply IH|].
    destruct (d' !! "username"); [now apply IH|reflexivity].
Qed.

(** What the normalizer returns in terms of the collection it built. *)
Lemma map_params_to_obj_collection module objs :
  map_params_to_obj module = Ok objs ->
  exists collection,
    Forall2 (fun item obj => populate item module = Ok obj) collection objs
    /\ Forall (fun item => is_Some (item !! "username")) collection
    /\ (forall items, users (params module) = Some items -> items <> [] ->
        collection = List.map item_dict items)
    /\ (users (params module) = None \/ users (params module) = Some [] ->
        Forall (fun item : dict => forall key, is_Some (item !! key) -> key = "username")
          collection).
Proof.
  unfold map_params_to_obj.
  set (no_username := negb (truthy (of_option PStr (username (params module))))).
  assert (Hsingle :
    (if (no_username && purge (params module))%bool then Ok []
     else if no_username then Raise (FailJson "username is required")
     else populate_all
            [{["username" := of_option PStr (username (params module))]}] module [])
      = Ok objs ->
    exists collection,
      Forall2 (fun item obj => populate item module = Ok obj) collection objs
      /\ Forall (fun item => is_Some (item !! "username")) collection
      /\ Forall (fun item : dict => forall key, is_Some (item !! key) -> key = "username")
           collection).
  { destruct (no_username && purge (params module))%bool.
    - intros [= <-]. exists []. repeat split; constructor.
    - destruct no_username; [discriminate|].
      intros H. apply populate_all_spec in H as (new & -> & HF).
      eexists. split; [exact HF|]. split; (constructor; [|constructor]).
      + rewrite lookup_singleton_eq. eauto.
      + intros key [v Hv]. apply lookup_singleton_Some in Hv as [<- _]. reflexivity. }
  destruct (users (params module)) as [[|it items]|] eqn:Eu.
  - intros H. destruct (Hsingle H) as (c & H1 & H2 & H3). exists c.
    split; [assumption|]. split; [assumption|]. split; [|now intros _].
    intros items [= <-]. congruence.
  - intros H.
    destruct (collect (it :: items) []) as [collection|e] eqn:Ec; simpl in H;
      [|discriminate].
    apply collect_spec in Ec as [-> HF].
    apply populate_all_spec in H as (new & -> & H2).
    exists (List.map item_dict (it :: items)). split; [exact H2|]. split; [|split].
    + apply List.Forall_forall. intros d (x & <- & Hx)%in_map_iff.
      rewrite List.Forall_forall in HF. now apply HF.
    + now intros items' [= <-].
    + intros [H'|H']; discriminate H'.
  - intros H. destruct (Hsingle H) as (c & H1 & H2 & H3). exists c.
    split; [assumption|]. split; [assumption|]. split; [discriminate|now intros _].
Qed.

(** X1: every record the normalizer returns carries all seven keys of a user
    record, so that the later reads of ['username'] and ['state'] cannot
    fail on it. *)
Theorem normalized_records_are_complete module objs :
  map_params_to_obj module = Ok objs ->
  Forall (fun obj => forall key, In key record_keys -> is_Some (obj !! key)) objs.
Proof.
  intros H. apply map_params_to_obj_collection in H as (collection & HF & Hu & _ & _).
  apply List.Forall_forall. intros obj Hin.
  destruct (Forall2_In_r _ _ _ _ HF Hin) as (item & Hitem & Hp).
  apply populate_spec in Hp as [Hk Ho].
  intros key Hkey. simpl in Hkey. destruct Hkey as [<-|Hkey].
  - rewrite Ho
      by (simpl; intros H'; repeat (destruct H' as [H'|H']; [discriminate H'|]);
          exact H').
    rewrite List.Forall_forall in Hu. now apply Hu.
  - apply Hk. exact Hkey.
Qed.

Lemma normalized_records_are_complete_witness :
  Forall (fun obj => forall key, In key record_keys -> is_Some (obj !! key))
    [record (PStr "bob") PNone PNone (PInt 0) PNone PNone (PStr "present")].
Proof.
  apply (normalized_records_are_complete (task (params_bob_privilege 0))).
  by_evaluation.
Defined.

(** X2: in the list form the normalizer returns one record per entry of
    [users], in the order of the entries, each with the username of its
    entry and with every key the entry had beyond the six it fills in. *)
Theorem normalizer_preserves_order module items objs :
  users (params module) = Some items -> items <> [] ->
  map_params_to_obj module = Ok objs ->
  Forall2 (fun it obj =>
             obj !! "username" = item_dict it !! "username"
             /\ forall key, ~ In key populated_keys ->
                            obj !! key = item_dict it !! key)
    items objs.
Proof.
  intros Hu Hne H.
  apply map_params_to_obj_collection in H as (collection & HF & _ & Hc & _).
  rewrite (Hc items Hu Hne) in HF. clear Hc Hu Hne.
  revert objs HF. induction items as [|it items IH]; intros objs HF;
    inversion HF as [|d obj ds objs' Hp HF' E1 E2]; subst; constructor.
  - apply populate_spec in Hp as [_ Ho]. split; [|exact Ho].
    apply Ho. simpl. intros H'.
    repeat (destruct H' as [H'|H']; [discriminate H'|]). exact H'.
  - now apply IH.
Qed.

Lemma normalizer_preserves_order_witness :
  let items :=
    [Bare (PStr "netop");
     Hash (<["username" := PStr "netend"]> (<["privilege" := PInt 15]> ∅))] in
  let objs :=
    [record (PStr "netop") PNone PNone PNone PNone PNone (PStr "present");
     record (PStr "netend") PNone PNone (PInt 15) PNone PNone (PStr "present")] in
  map_params_to_obj (task (params_users items false)) = Ok objs
  /\ Forall2 (fun it obj =>
                obj !! "username" = item_dict it !! "username"
                /\ forall key, ~ In key populated_keys ->
                               obj !! key = item_dict it !! key)
       items objs.
Proof.
  intros items objs.
  assert (E : map_params_to_obj (task (params_users items false)) = Ok objs)
    by (by_evaluation).
  split; [exact E|].
  apply (normalizer_preserves_order (task (params_users items false)) items objs);
    [reflexivity|discriminate|exact E].
Defined.

(** X3: an entry of [users] that is a hash without a username makes the
    normalizer fail with "username is required", wherever it stands in the
    list and whatever the other entries hold: the list is scanned for it
    before any entry is defaulted, type-checked or validated. *)
Theorem missing_username_is_reported_first module items d :
  users (params module) = Some items ->
  In (Hash d) items -> d !! "username" = None ->
  map_params_to_obj module = Raise (FailJson "username is required").
Proof.
  intros Hu Hin Hd. unfold map_params_to_obj. rewrite Hu.
  destruct items as [|it items]; [destruct Hin|].
  now rewrite (collect_missing_username _ _ d Hin Hd).
Qed.

Lemma missing_username_is_reported_first_witness :
  let items :=
    [Hash (<["username" := PStr "bob"]> (<["privilege" := PInt 99]> ∅));
     Hash (<["role" := PStr "ops"]> ∅)] in
  map_params_to_obj (task (params_users items false))
    = Raise (FailJson "username is required").
Proof.
  intros items.
  apply (missing_username_is_reported_first (task (params_users items false)) items
           (<["role" := PStr "ops"]> ∅) eq_refl).
  - right. now left.
  - reflexivity.
Defined.

(** X4: an explicit truthy value is kept as the entry gives it.  The type
    checker is run on it, and an exception of the checker ends the
    normalization, but what the checker returns is dropped: for a key
    without validator the result is the entry's own value, uncoerced. *)
Theorem explicit_value_is_not_coerced key item module v :
  item !! key = Some v -> truthy v = true ->
  (forall coerced,
     _CHECK_ARGUMENT_TYPES_DISPATCHER module (argument_spec_type key) v = Ok coerced ->
     validator_for key = None ->
     get_param_value key item module = Ok v)
  /\ (forall e,
        _CHECK_ARGUMENT_TYPES_DISPATCHER module (argument_spec_type key) v = Raise e ->
        get_param_value key item module = Raise e).
Proof.
  intros Hi Ht. unfold get_param_value.
  rewrite (dict_get_lookup _ _ _ Hi), Ht, (getitem_get _ _ _ Hi). simpl. split.
  - intros coerced -> ->. reflexivity.
  - intros e ->. reflexivity.
Qed.

Lemma explicit_value_is_not_coerced_witness :
  let module := with_dispatcher (task (params_purge_only false)) coercing_dispatcher in
  get_param_value "role" (<["role" := PInt 5]> ∅) module = Ok (PInt 5)
  /\ get_param_value "privilege" (<["privilege" := PStr "high"]> ∅) module
     = Raise (ValueError "high").
Proof.
  intros module. split.
  - destruct (explicit_value_is_not_coerced "role" (<["role" := PInt 5]> ∅) module
                (PInt 5)) as [H _]; [by_evaluation|reflexivity|].
    apply (H (PInt 5)); reflexivity.
  - destruct (explicit_value_is_not_coerced "privilege"
                (<["privilege" := PStr "high"]> ∅) module (PStr "high"))
      as [_ H]; [by_evaluation|reflexivity|].
    apply H. reflexivity.
Defined.

(** X5: for an explicit integer privilege other than 0 that the type checker
    accepts, normalization succeeds with the same integer exactly when it
    lies in 1..15, and otherwise ends in the fatal error naming the value. *)
Theorem nonzero_privilege_bounds z item module coerced :
  item !! "privilege" = Some (PInt z) -> z <> 0 ->
  _CHECK_ARGUMENT_TYPES_DISPATCHER module "int" (PInt z) = Ok coerced ->
  get_param_value "privilege" item module =
    if ((1 <=? z) && (z <=? 15))%bool then Ok (PInt z)
    else Raise (FailJson ("privilege must be between 1 and 15, got " +:+ pretty z)).
Proof.
  intros Hi Hz Hc.
  destruct ((1 <=? z) && (z <=? 15))%bool eqn:E.
  - apply andb_true_iff in E as [H1 H2].
    apply privilege_in_range_accepted; [assumption|lia|eauto].
  - apply privilege_out_of_range_rejected; [assumption..| |eauto].
    apply andb_false_iff in E. lia.
Qed.

Lemma nonzero_privilege_bounds_witness :
  get_param_value "privilege" (<["privilege" := PInt 15]> ∅)
    (task (params_purge_only false)) = Ok (PInt 15)
  /\ get_param_value "privilege" (<["privilege" := PInt 16]> ∅)
       (task (params_purge_only false))
     = Raise (FailJson "privilege must be between 1 and 15, got 16")
  /\ get_param_value "privilege" (<["privilege" := PInt (-1)]> ∅)
       (task (params_purge_only false))
     = Raise (FailJson "privilege must be between 1 and 15, got -1").
Proof.
  split; [|split].
  - apply (nonzero_privilege_bounds 15 _ _ (PInt 15));
      [by_evaluation|lia|reflexivity].
  - apply (nonzero_privilege_bounds 16 _ _ (PInt 16));
      [by_evaluation|lia|reflexivity].
  - apply (nonzero_privilege_bounds (-1) _ _ (PInt (-1)));
      [by_evaluation|lia|reflexivity].
Defined.

(** ** The renderer and the diff engine: what they emit and for whom *)

Lemma needs_update_empty want field :
  needs_update want ∅ field = truthy (dict_get want field).
Proof.
  unfold needs_update. unfold dict_get at 3. rewrite lookup_empty. simpl.
  destruct (truthy (dict_get want field)) eqn:E; [|reflexivity].
  now rewrite py_eq_None_r.
Qed.

Lemma needs_update_falsy want have field :
  truthy (dict_get want field) = false -> needs_update want have field = false.
Proof. unfold needs_update. now intros ->. Qed.

Lemma py_eq_PStr v s : py_eq v (PStr s) = true -> v = PStr s.
Proof.
  destruct v as [| | |t]; simpl; try discriminate.
  now intros ->%String.eqb_eq.
Qed.

Ltac not_that_command H :=
  simpl in H; destruct H as [H|[]]; apply field_command_inj in H; discriminate H.

(** X6: the command that switches passwordless login off,
    [username <u> no username <u> nopassword], is never rendered: the branch
    that would emit it sits behind a test that needs a truthy nopassword. *)
Theorem disable_nopassword_is_never_rendered update_password want have commands u :
  want !! "username" = Some u -> is_Some (want !! "state") ->
  exists added,
    render_update update_password want have commands = Ok (commands ++ added)
    /\ ~ In (field_command u ("no username " +:+ py_str u +:+ " nopassword")) added.
Proof.
  intros Hu Hst. exists (commands_of_pair update_password want have).
  split; [apply render_update_closed_form; eauto|].
  unfold commands_of_pair, secret_commands, nopassword_commands, field_commands.
  rewrite (dict_get_lookup _ _ _ Hu).
  destruct (py_eq (dict_get want "state") (PStr "absent")).
  - intros [H|[]]. unfold removal_command, field_command in H. discriminate H.
  - rewrite !in_app_iff. intros [H|[H|[H|[H|H]]]].
    + destruct (needs_update want have "role"); [not_that_command H|destruct H].
    + destruct (needs_update want have "privilege"); [not_that_command H|destruct H].
    + destruct (String.eqb update_password "always" || negb (dict_truthy have))%bool;
        [|destruct H].
      destruct (needs_update want have "password"); [not_that_command H|destruct H].
    + destruct (needs_update want have "sshkey"); [not_that_command H|destruct H].
    + destruct (needs_update want have "nopassword"); [not_that_command H|destruct H].
Qed.

Lemma disable_nopassword_is_never_rendered_witness :
  let want :=
    record (PStr "bob") PNone (PBool false) PNone PNone PNone (PStr "present") in
  let have :=
    record (PStr "bob") PNone (PBool true) PNone PNone PNone (PStr "present") in
  render_update "always" want have [] = Ok []
  /\ exists added,
       render_update "always" want have [] = Ok ([] ++ added)
       /\ ~ In "username bob no username bob nopassword" added.
Proof.
  intros want have. split; [by_evaluation|].
  apply (disable_nopassword_is_never_rendered "always" want have [] (PStr "bob")).
  - by_evaluation.
  - exists (PStr "present"). by_evaluation.
Defined.

(** X7: a wanted account that the device does not have and for which no
    role, privilege, password, sshkey or nopassword is set yields no command
    at all, so that the account is not created. *)
Theorem bare_new_account_yields_no_command have module entry :
  Forall have_record have -> want_record entry ->
  find_have have entry = Ok None ->
  (forall field, In field ["role"; "privilege"; "password"; "sshkey"; "nopassword"] ->
                 truthy (dict_get entry field) = false) ->
  reconcile [entry] have module = Ok [].
Proof.
  intros Hh Hw Hf Hfields.
  assert (Hl : Forall want_record [entry]) by (constructor; [assumption|constructor]).
  rewrite (reconcile_closed_form _ _ _ Hh Hl). f_equal.
  cbn [List.map concat]. rewrite app_nil_r. unfold pairs_of_entry.
  rewrite (find_have_lookup _ _ _ Hh (want_record_username _ Hw) Hf).
  destruct (py_eq (dict_get entry "state") (PStr "present")) eqn:Ep; [|reflexivity].
  apply py_eq_PStr in Ep.
  cbn [List.map concat fst snd]. rewrite app_nil_r.
  unfold commands_of_pair, secret_commands, nopassword_commands, field_commands.
  rewrite Ep, !needs_update_falsy by (apply Hfields; simpl; tauto).
  cbn [py_eq String.eqb Ascii.eqb Bool.eqb].
  now destruct (_ || _)%bool.
Qed.

Lemma bare_new_account_yields_no_command_witness :
  let entry := record (PStr "bob") PNone PNone PNone PNone PNone (PStr "present") in
  map_params_to_obj (task (params_username "bob")) = Ok [entry]
  /\ reconcile [entry] [] (task (params_username "bob")) = Ok []
  /\ main no_engine "" no_response (task (params_username "bob"))
     = ([], Ok {| changed := false; commands := []; diff := None;
                  session_name := None |}).
Proof.
  intros entry. split; [by_evaluation|]. split; [|by_evaluation].
  apply (bare_new_account_yields_no_command [] (task (params_username "bob")) entry).
  - constructor.
  - apply record_want_record.
  - reflexivity.
  - intros field [<-|[<-|[<-|[<-|[<-|[]]]]]]; by_evaluation.
Defined.

(** X8: for a wanted account that the device does not have, the commands are
    one per set field, in the order role, privilege, secret, sshkey,
    nopassword, under every [update_password] policy. *)
Theorem new_account_commands have module entry :
  Forall have_record have -> want_record entry ->
  entry !! "state" = Some (PStr "present") ->
  find_have have entry = Ok None ->
  reconcile [entry] have module
    = Ok (creation_command entry "role" ("role " +:+ py_str (dict_get entry "role"))
          ++ creation_command entry "privilege"
               ("privilege " +:+ py_str (dict_get entry "privilege"))
          ++ creation_command entry "password"
               ("secret " +:+ py_str (dict_get entry "password"))
          ++ creation_command entry "sshkey"
               ("sshkey " +:+ py_str (dict_get entry "sshkey"))
          ++ creation_command entry "nopassword" "nopassword").
Proof.
  intros Hh Hw Hst Hf.
  assert (Hl : Forall want_record [entry]) by (constructor; [assumption|constructor]).
  rewrite (reconcile_closed_form _ _ _ Hh Hl). f_equal.
  cbn [List.map concat]. rewrite app_nil_r. unfold pairs_of_entry.
  rewrite (find_have_lookup _ _ _ Hh (want_record_username _ Hw) Hf).
  rewrite (dict_get_lookup _ _ _ Hst).
  cbn [py_eq String.eqb Ascii.eqb Bool.eqb List.map concat fst snd].
  rewrite app_nil_r.
  unfold commands_of_pair, secret_commands, nopassword_commands, field_commands,
    creation_command.
  rewrite (dict_get_lookup _ _ _ Hst), !needs_update_empty.
  cbn [py_eq String.eqb Ascii.eqb Bool.eqb].
  replace (dict_truthy ∅) with false by reflexivity.
  now rewrite orb_true_r.
Qed.

Lemma new_account_commands_witness :
  let entry :=
    record (PStr "bob") (PStr "x") PNone (PInt 7) PNone (PStr "KEY1") (PStr "present") in
  reconcile [entry] [] (task (params_bob_password "on_create" "present"))
    = Ok ["username bob privilege 7"; "username bob secret x";
          "username bob sshkey KEY1"].
Proof.
  intros entry.
  rewrite (new_account_commands [] (task (params_bob_password "on_create" "present"))
             entry).
  - by_evaluation.
  - constructor.
  - apply record_want_record.
  - by_evaluation.
  - reflexivity.
Defined.

(** X9: reconciling a want list that is the concatenation of two lists
    yields the commands of the first followed by the commands of the second:
    the command order follows the order of the want list. *)
Theorem reconcile_follows_want_order w1 w2 have module :
  Forall have_record have -> Forall want_record w1 -> Forall want_record w2 ->
  exists c1 c2,
    reconcile w1 have module = Ok c1
    /\ reconcile w2 have module = Ok c2
    /\ reconcile (w1 ++ w2) have module = Ok (c1 ++ c2).
Proof.
  intros Hh H1 H2.
  assert (H12 : Forall want_record (w1 ++ w2)) by (apply Forall_app; now split).
  do 2 eexists. split; [now apply reconcile_closed_form|].
  split; [now apply reconcile_closed_form|].
  rewrite (reconcile_closed_form _ _ _ Hh H12).
  now rewrite List.map_app, concat_app, List.map_app, concat_app.
Qed.

Lemma reconcile_follows_want_order_witness :
  let bob :=
    record (PStr "bob") PNone PNone (PInt 7) PNone PNone (PStr "present") in
  let carol :=
    record (PStr "carol") PNone PNone PNone (PStr "ops") PNone (PStr "present") in
  reconcile [bob; carol] [] (task (params_username "bob"))
    = Ok ["username bob privilege 7"; "username carol role ops"].
Proof.
  intros bob carol.
  destruct (reconcile_follows_want_order [bob] [carol] [] (task (params_username "bob")))
    as (c1 & c2 & E1 & E2 & E12).
  - constructor.
  - constructor; [apply record_want_record|constructor].
  - constructor; [apply record_want_record|constructor].
  - change ([bob; carol]) with ([bob] ++ [carol]). rewrite E12.
    assert (F1 : reconcile [bob] [] (task (params_username "bob"))
                 = Ok ["username bob privilege 7"]) by by_evaluation.
    assert (F2 : reconcile [carol] [] (task (params_username "bob"))
                 = Ok ["username carol role ops"]) by by_evaluation.
    rewrite E1 in F1. rewrite E2 in F2.
    injection F1 as ->. injection F2 as ->. reflexivity.
Defined.

Lemma commands_of_pair_target update_password want have c :
  In c (commands_of_pair update_password want have) ->
  c = removal_command (dict_get want "username")
  \/ exists x, c = field_command (dict_get want "username") x.
Proof.
  unfold commands_of_pair, secret_commands, nopassword_commands, field_commands.
  destruct (py_eq (dict_get want "state") (PStr "absent")).
  - intros [<-|[]]. now left.
  - rewrite !in_app_iff. intros H. right.
    repeat match type of H with
           | _ \/ _ => destruct H as [H|H]
           | In _ (if ?b then _ else _) => destruct b
           | In _ [_] => destruct H as [<-|[]]; eexists; reflexivity
           | In _ [] => destruct H
           end.
Qed.

(** X10: every command of a reconcile pass is addressed to the username of
    a record of the want list, as its removal or as one of its field
    commands: accounts that are not wanted are never touched by it. *)
Theorem reconcile_touches_only_wanted want have module :
  Forall have_record have -> Forall want_record want ->
  exists cmds,
    reconcile want have module = Ok cmds
    /\ forall c, In c cmds ->
         exists entry,
           In entry want
           /\ (c = removal_command (dict_get entry "username")
               \/ exists x, c = field_command (dict_get entry "username") x).
Proof.
  intros Hh Hw. eexists. split; [now apply reconcile_closed_form|].
  intros c Hc.
  apply in_concat in Hc as (cs & Hcs & Hc).
  apply in_map_iff in Hcs as ([w h] & <- & Hwh).
  apply in_concat in Hwh as (ps & Hps & Hwh).
  apply in_map_iff in Hps as (entry & <- & He).
  apply pairs_of_entry_fst in Hwh. simpl in Hwh. subst w.
  exists entry. split; [assumption|].
  simpl in Hc. now apply commands_of_pair_target in Hc.
Qed.

Lemma reconcile_touches_only_wanted_witness :
  let bob :=
    record (PStr "bob") PNone PNone (PInt 7) PNone PNone (PStr "present") in
  let carol :=
    record (PStr "carol") PNone (PBool true) PNone PNone PNone (PStr "present") in
  exists cmds,
    reconcile [bob] [have_bob; carol] (task (params_username "bob")) = Ok cmds
    /\ forall c, In c cmds ->
         exists entry,
           In entry [bob]
           /\ (c = removal_command (dict_get entry "username")
               \/ exists x, c = field_command (dict_get entry "username") x).
Proof.
  intros bob carol.
  apply (reconcile_touches_only_wanted [bob] [have_bob; carol]).
  - constructor; [|constructor; [|constructor]]; apply record_have_record.
  - constructor; [apply record_want_record|constructor].
Defined.

(** ** Foreign keys and the exceptions of a run *)

Lemma find_have_username have entry item :
  find_have have entry = Ok (Some item) -> is_Some (item !! "username").
Proof.
  induction have as [|i have IH]; simpl; [discriminate|].
  unfold getitem. destruct (i !! "username") as [iu|] eqn:Ei; simpl;
    [|discriminate].
  destruct (entry !! "username") as [eu|]; simpl; [|discriminate].
  destruct (py_eq iu eu); [|exact IH].
  intros [= <-]. eauto.
Qed.

Lemma update_fields_missing_key items entry item updates :
  (exists key v, In (key, v) items /\ truthy v = true /\ item !! key = None) ->
  exists key v,
    update_fields items entry item updates = Raise (KeyError key)
    /\ In (key, v) items /\ truthy v = true /\ item !! key = None.
Proof.
  revert updates. induction items as [|[k w] items IH]; intros updates (key & v & Hin & Ht & Hn);
    [destruct Hin|].
  simpl. destruct (truthy w) eqn:Ew.
  - unfold getitem. destruct (item !! k) as [iv|] eqn:Ek; simpl.
    + destruct Hin as [[= -> ->]|Hin]; [congruence|].
      assert (Hex : exists key v, In (key, v) items /\ truthy v = true
                                  /\ item !! key = None) by eauto.
      destruct (py_eq w iv); simpl;
        [destruct (IH updates Hex) as (key' & v' & E & H1 & H2 & H3)
        |destruct (IH (updates ++ [(entry, item)]) Hex) as (key' & v' & E & H1 & H2 & H3)];
        exists key', v'; (split; [exact E|]); (split; [now right|]); now split.
    + exists k, w. split; [reflexivity|]. split; [now left|]. now split.
  - destruct Hin as [[= -> ->]|Hin]; [congruence|].
    destruct (IH updates) as (key' & v' & E & H1 & H2 & H3); [eauto|].
    exists key', v'. split; [exact E|]. split; [now right|]. now split.
Qed.

(** X11: when a want record carries a key with a truthy value that its have
    record lacks (a key outside the user record, since a parsed have record
    has every key of it), the diff engine does not return: reading
    [item[key]] raises [KeyError] for such a key. *)
Theorem foreign_key_raises_key_error have entry item updates key v :
  find_have have entry = Ok (Some item) -> is_Some (entry !! "state") ->
  entry !! key = Some v -> truthy v = true -> item !! key = None ->
  exists key',
    update_entry have entry updates = Raise (KeyError key')
    /\ item !! key' = None
    /\ exists v', entry !! key' = Some v' /\ truthy v' = true.
Proof.
  intros Hf [st Hst] Hk Ht Hn. unfold update_entry.
  rewrite Hf, (getitem_get _ _ _ Hst). simpl.
  rewrite (dict_truthy_lookup _ _ (find_have_username _ _ _ Hf)).
  destruct (update_fields_missing_key (map_to_list entry) entry item updates)
    as (key' & v' & E & Hin & Ht' & Hn').
  { exists key, v. split; [|now split].
    apply (proj1 (list_elem_of_In _ _)), (proj2 (elem_of_map_to_list _ _ _)), Hk. }
  exists key'. split; [exact E|]. split; [exact Hn'|].
  exists v'. split; [|exact Ht'].
  apply (proj1 (elem_of_map_to_list _ _ _)), (proj2 (list_elem_of_In _ _)), Hin.
Qed.

Lemma foreign_key_raises_key_error_witness :
  let entry :=
    <["comment" := PStr "on call"]>
      (record (PStr "bob") PNone PNone PNone PNone PNone (PStr "present")) in
  update_objects [entry] [have_bob] = Raise (KeyError "comment")
  /\ exists key',
       update_entry [have_bob] entry [] = Raise (KeyError key')
       /\ have_bob !! key' = None
       /\ exists v', entry !! key' = Some v' /\ truthy v' = true.
Proof.
  intros entry. split; [by_evaluation|].
  apply (foreign_key_raises_key_error [have_bob] entry have_bob [] "comment"
           (PStr "on call")).
  - by_evaluation.
  - exists (PStr "present"). by_evaluation.
  - by_evaluation.
  - reflexivity.
  - by_evaluation.
Defined.

Lemma usernames_of_total objs :
  Forall (fun obj => is_Some (obj !! "username")) objs ->
  exists us, usernames_of objs = Ok us.
Proof.
  induction 1 as [|obj objs [u Hu] _ [us IH]]; simpl; [now exists []|].
  rewrite (getitem_get _ _ _ Hu), IH. simpl. now exists (u :: us).
Qed.

Lemma populated_keys_in_record_keys key : In key populated_keys -> In key record_keys.
Proof. simpl. tauto. Qed.

Lemma In_populated_keys_dec key : In key populated_keys \/ ~ In key populated_keys.
Proof.
  destruct (in_dec String.string_dec key populated_keys); [now left|now right].
Qed.

(** X12: when no entry of [users] has a key outside the user record, a run
    in which the normalizer and the parser return goes through the diff
    engine, the renderer and the purge block without any exception. *)
Theorem run_is_total_on_record_keys re config module want have :
  map_params_to_obj module = Ok want ->
  map_config_to_obj re config = Ok have ->
  (forall items, users (params module) = Some items ->
     Forall (fun it => forall key, is_Some (item_dict it !! key) -> In key record_keys)
       items) ->
  exists cmds, main_commands re config module = Ok cmds.
Proof.
  intros Hwant Hhave Hkeys.
  assert (Hw : Forall want_record want).
  { apply map_params_to_obj_collection in Hwant
      as (collection & HF & Hu & Hlist & Hsingle).
    apply List.Forall_forall. intros obj Hin.
    destruct (Forall2_In_r _ _ _ _ HF Hin) as (item & Hitem & Hpop).
    apply populate_spec in Hpop as [Hk Ho].
    split.
    { rewrite Ho
        by (simpl; intros H'; repeat (destruct H' as [H'|H']; [discriminate H'|]);
            exact H').
      rewrite List.Forall_forall in Hu. now apply Hu. }
    split; [apply Hk; simpl; tauto|].
    intros key Hkey.
    destruct (In_populated_keys_dec key) as [Hp|Hp];
      [now apply populated_keys_in_record_keys|].
    rewrite (Ho key Hp) in Hkey.
    destruct (users (params module)) as [[|it items]|] eqn:Eu.
    - rewrite List.Forall_forall in Hsingle.
      rewrite (Hsingle (or_intror eq_refl) item Hitem key Hkey). simpl. tauto.
    - rewrite (Hlist _ eq_refl ltac:(discriminate)) in Hitem.
      apply in_map_iff in Hitem as (x & <- & Hx).
      specialize (Hkeys _ eq_refl). rewrite List.Forall_forall in Hkeys.
      now apply (Hkeys x).
    - rewrite List.Forall_forall in Hsingle.
      rewrite (Hsingle (or_introl eq_refl) item Hitem key Hkey). simpl. tauto. }
  assert (Hh : Forall have_record have).
  { apply map_config_to_obj_records in Hhave.
    eapply List.Forall_impl; [|exact Hhave]. now intros obj [H _]. }
  rewrite main_commands_reconcile, Hwant, Hhave. cbn [mbind result_bind].
  rewrite (reconcile_closed_form _ _ _ Hh Hw). cbn [mbind result_bind].
  destruct (purge (params module)); [|eauto].
  unfold purge_block.
  destruct (usernames_of_total want) as [wu ->].
  { eapply List.Forall_impl; [|exact Hw]. intros obj Ho. now apply want_record_username. }
  destruct (usernames_of_total have) as [hu ->].
  { eapply List.Forall_impl; [|exact Hh]. intros obj Ho. now apply have_record_username. }
  cbn [mbind result_bind]. eauto.
Qed.

Lemma run_is_total_on_record_keys_witness :
  exists cmds,
    main_commands no_engine "username carol nopassword"
      (task (params_users [Bare (PStr "alice")] true)) = Ok cmds.
Proof.
  apply (run_is_total_on_record_keys no_engine "username carol nopassword"
           (task (params_users [Bare (PStr "alice")] true))
           [record (PStr "alice") PNone PNone PNone PNone PNone (PStr "present")]
           [record (PStr "carol") PNone (PBool true) PNone PNone PNone (PStr "present")]).
  - by_evaluation.
  - by_evaluation.
  - intros items [= <-]. constructor; [|constructor].
    intros key [v Hv]. cbn [item_dict] in Hv.
    apply lookup_singleton_Some in Hv as [<- _]. simpl. tauto.
Defined.

(** ** The purge block: which accounts it removes *)

Lemma py_eq_PStr_l s v : py_eq (PStr s) v = true -> v = PStr s.
Proof.
  destruct v as [| | |t]; simpl; try discriminate.
  now intros ->%String.eqb_eq.
Qed.

Lemma existsb_py_eq_PStr s l : existsb (py_eq (PStr s)) l = true <-> In (PStr s) l.
Proof.
  rewrite existsb_exists. split.
  - intros (x & Hx & ->%py_eq_PStr_l). exact Hx.
  - intros H. exists (PStr s). split; [exact H|]. simpl. apply String.eqb_refl.
Qed.

Lemma py_set_strings hs :
  exists ss, py_set (List.map PStr hs) = List.map PStr ss
             /\ List.NoDup ss /\ forall h, In h ss <-> In h hs.
Proof.
  induction hs as [|h hs (ss & E & Hnd & Hin)]; simpl.
  - exists []. split; [reflexivity|]. split; [constructor|tauto].
  - destruct (existsb (py_eq (PStr h)) (List.map PStr hs)) eqn:Ex.
    + exists ss. split; [exact E|]. split; [exact Hnd|].
      apply existsb_py_eq_PStr, in_map_iff in Ex as (h' & [= ->] & Hh).
      intros x. rewrite Hin. split; [tauto|]. now intros [<-|H].
    + exists (h :: ss). split; [simpl; now rewrite E|]. split.
      * constructor; [|exact Hnd]. rewrite Hin. intros Hh.
        assert (Ht : existsb (py_eq (PStr h)) (List.map PStr hs) = true)
          by (apply existsb_py_eq_PStr, in_map; exact Hh).
        congruence.
      * intros x. simpl. now rewrite Hin.
Qed.

Lemma filter_map_PStr (f : pyval -> bool) ss :
  List.filter f (List.map PStr ss) = List.map PStr (List.filter (fun s => f (PStr s)) ss).
Proof.
  induction ss as [|s ss IH]; simpl; [reflexivity|].
  destruct (f (PStr s)); simpl; now rewrite IH.
Qed.

Lemma purge_loop_strings ss :
  purge_loop (List.map PStr ss) []
    = List.map (fun s => "no username " +:+ s)
        (List.filter (fun s => negb (String.eqb s "admin")) ss).
Proof.
  induction ss as [|s ss IH]; simpl; [reflexivity|].
  destruct (String.eqb s "admin"); simpl; [exact IH|].
  rewrite purge_loop_app, IH. reflexivity.
Qed.

(** X13: with the usernames of the have records being strings, the purge
    block appends one removal command for each username of the device that
    equals no wanted username and is not [admin]: every such username is
    removed, no other command is added, and no command is added twice. *)
Theorem purge_removes_exactly_the_unwanted want have commands hs wu :
  usernames_of want = Ok wu ->
  usernames_of have = Ok (List.map PStr hs) ->
  exists removed,
    purge_block want have commands
      = Ok (commands ++ List.map (fun s => "no username " +:+ s) removed)
    /\ List.NoDup removed
    /\ forall h, In h removed <-> In h hs /\ h <> "admin" /\ ~ In (PStr h) wu.
Proof.
  intros Hw Hh. unfold purge_block, difference. rewrite Hw, Hh.
  cbn [mbind result_bind].
  destruct (py_set_strings hs) as (ss & -> & Hnd & Hin).
  rewrite filter_map_PStr, purge_loop_app, purge_loop_strings.
  eexists. split; [reflexivity|]. split.
  - now do 2 apply List.NoDup_filter.
  - intros h. rewrite !filter_In, Hin, negb_true_iff, negb_true_iff.
    rewrite String.eqb_neq.
    assert (existsb (py_eq (PStr h)) wu = false <-> ~ In (PStr h) wu)
      by (rewrite <- existsb_py_eq_PStr; now destruct (existsb _ _)).
    tauto.
Qed.

Lemma purge_removes_exactly_the_unwanted_witness :
  let alice := record (PStr "alice") PNone PNone PNone PNone PNone (PStr "present") in
  let admin := record (PStr "admin") PNone PNone PNone PNone PNone (PStr "present") in
  let carol := record (PStr "carol") PNone PNone PNone PNone PNone (PStr "present") in
  purge_block [alice] [alice; admin; carol; carol] [] = Ok ["no username carol"]
  /\ exists removed,
       purge_block [alice] [alice; admin; carol; carol] []
         = Ok ([] ++ List.map (fun s => "no username " +:+ s) removed)
       /\ List.NoDup removed
       /\ forall h, In h removed <->
            In h ["alice"; "admin"; "carol"; "carol"] /\ h <> "admin"
            /\ ~ In (PStr h) [PStr "alice"].
Proof.
  intros alice admin carol. split; [by_evaluation|].
  apply (purge_removes_exactly_the_unwanted [alice] [alice; admin; carol; carol] []
           ["alice"; "admin"; "carol"; "carol"] [PStr "alice"]); by_evaluation.
Defined.

(** ** main: when the device is written to *)

(** X14: [main] calls [load_config] at most once; a call carries the whole
    command list of the run, which is then not empty and holds no removal of
    [admin], and it commits exactly when the module is not in check mode. *)
Theorem load_config_discipline re config load_config module :
  (length (fst (main re config load_config module)) <= 1)%nat
  /\ forall cmds commit,
       In (LoadConfig cmds commit) (fst (main re config load_config module)) ->
       main_commands re config module = Ok cmds
       /\ cmds <> []
       /\ ~ In "no username admin" cmds
       /\ commit = negb (check_mode module).
Proof.
  unfold main. destruct (main_commands re config module) as [commands|e].
  - destruct (existsb (String.eqb "no username admin") commands) eqn:Ex.
    + cbn [fst length]. split; [lia|]. intros cmds commit [].
    + destruct commands as [|c commands]; cbn [fst length].
      * split; [lia|]. intros cmds commit [].
      * split; [lia|]. intros cmds commit [[= <- <-]|[]].
        split; [reflexivity|]. split; [discriminate|]. split; [|reflexivity].
        intros Hin.
        assert (Ht : existsb (String.eqb "no username admin") (c :: commands) = true).
        { apply existsb_exists. exists "no username admin".
          split; [exact Hin|apply String.eqb_refl]. }
        congruence.
  - cbn [fst length]. split; [lia|]. intros cmds commit [].
Qed.

Lemma load_config_discipline_witness :
  let module :=
    {| params := params_bob_privilege 7; check_mode := true; _diff := false;
       _CHECK_ARGUMENT_TYPES_DISPATCHER := accept_all |} in
  fst (main no_engine "" no_response module)
    = [LoadConfig ["username bob privilege 7"] false]
  /\ main_commands no_engine "" module = Ok ["username bob privilege 7"]
  /\ false = negb (check_mode module).
Proof.
  intros module.
  assert (E : fst (main no_engine "" no_response module)
              = [LoadConfig ["username bob privilege 7"] false]) by by_evaluation.
  split; [exact E|].
  destruct (load_config_discipline no_engine "" no_response module) as [_ H].
  destruct (H ["username bob privilege 7"] false) as (H1 & _ & _ & H4).
  - rewrite E. now left.
  - split; [exact H1|exact H4].
Defined.

(** ** The parser: the records it returns *)

Lemma usernames_of_parsed re data users objs :
  Forall2 (fun user obj => parse_user re user data = Ok obj) users objs ->
  usernames_of objs = Ok (List.map PStr users).
Proof.
  induction 1 as [|user obj users objs Hp _ IH]; simpl; [reflexivity|].
  apply parse_user_inv in Hp as (lines & privilege & _ & _ & ->).
  rewrite IH. reflexivity.
Qed.

Lemma parsed_record_keys user cfg privilege key :
  is_Some (parsed_record user cfg privilege !! key) <-> In key record_keys.
Proof.
  split.
  - intros [v Hv]. unfold parsed_record in Hv. simpl.
    repeat (apply lookup_insert_Some in Hv as [[<- _]|[_ Hv]]; [tauto|]).
    now rewrite lookup_empty in Hv.
  - apply parsed_record_have_record.
Qed.

(** X15: the parser returns one record for each distinct username declared
    in the text and none for any other name; every record has exactly the
    seven keys of a user record, the state [present] and a null password. *)
Theorem parsed_records_invariants re data objs :
  map_config_to_obj re data = Ok objs ->
  (exists users,
     usernames_of objs = Ok (List.map PStr users)
     /\ List.NoDup users
     /\ forall user, In user users <-> In user (findall_usernames data))
  /\ Forall (fun obj =>
               (forall key, is_Some (obj !! key) <-> In key record_keys)
               /\ obj !! "state" = Some (PStr "present")
               /\ obj !! "password" = Some PNone)
       objs.
Proof.
  intros H. apply map_config_to_obj_spec in H. split.
  - exists (remove_dups (findall_usernames data)).
    split; [now apply (usernames_of_parsed re data)|]. split.
    + apply NoDup_ListNoDup, NoDup_remove_dups.
    + intros user. apply In_remove_dups.
  - apply List.Forall_forall. intros obj Hin.
    destruct (Forall2_In_r _ _ _ _ H Hin) as (user & _ & Hp).
    apply parse_user_inv in Hp as (lines & privilege & _ & _ & ->).
    split; [apply parsed_record_keys|]. split; reflexivity.
Qed.

Lemma parsed_records_invariants_witness :
  let data := "username bob privilege 7" +:+ String LF "username bob sshkey KEY1"
              +:+ String LF "username admin nopassword" in
  exists objs,
    map_config_to_obj no_engine data = Ok objs
    /\ exists users,
         usernames_of objs = Ok (List.map PStr users)
         /\ List.NoDup users
         /\ forall user, In user users <-> In user ["bob"; "bob"; "admin"].
Proof.
  intros data.
  exists [record (PStr "bob") PNone (PBool false) (PInt 7) PNone (PStr "KEY1")
            (PStr "present");
          record (PStr "admin") PNone (PBool true) PNone PNone PNone (PStr "present")].
  assert (E : map_config_to_obj no_engine data
              = Ok [record (PStr "bob") PNone (PBool false) (PInt 7) PNone (PStr "KEY1")
                      (PStr "present");
                    record (PStr "admin") PNone (PBool true) PNone PNone PNone
                      (PStr "present")]) by by_evaluation.
  split; [exact E|].
  destruct (parsed_records_invariants no_engine data _ E) as [(users & H1 & H2 & H3) _].
  exists users. split; [exact H1|]. split; [exact H2|].
  replace ["bob"; "bob"; "admin"] with (findall_usernames data) by by_evaluation.
  exact H3.
Defined.

Lemma span_nonspace_spec s :
  exists rest,
    s = span_nonspace s +:+ rest
    /\ (rest = "" \/ exists c rest', rest = String c rest' /\ is_space c = true)
    /\ Forall (fun c => is_space c = false) (list_ascii_of_string (span_nonspace s)).
Proof.
  induction s as [|c s (rest & E & Hrest & Hall)]; simpl.
  - exists "". split; [reflexivity|]. split; [now left|constructor].
  - destruct (is_space c) eqn:Ec.
    + exists (String c s). split; [reflexivity|]. split; [right; eauto|constructor].
    + exists rest. split; [rewrite append_cons; now rewrite <- E|].
      split; [exact Hrest|]. simpl. now constructor.
Qed.

Lemma span_line_spec s :
  exists rest,
    s = span_line s +:+ rest
    /\ (rest = "" \/ exists rest', rest = String LF rest')
    /\ Forall (fun c => c <> LF) (list_ascii_of_string (span_line s)).
Proof.
  induction s as [|c s (rest & E & Hrest & Hall)]; simpl.
  - exists "". split; [reflexivity|]. split; [now left|constructor].
  - destruct (Ascii.eqb_spec c LF) as [->|Hne].
    + exists (String LF s). split; [reflexivity|]. split; [right; eauto|constructor].
    + exists rest. split; [rewrite append_cons; now rewrite <- E|].
      split; [exact Hrest|]. simpl. now constructor.
Qed.

Lemma nonempty_true s : nonempty s = true -> s <> "".
Proof. now destruct s. Qed.

Lemma search_token_spec kw data tok :
  search_token kw data = Some tok ->
  tok <> ""
  /\ Forall (fun c => is_space c = false) (list_ascii_of_string tok)
  /\ exists pre rest,
       data = pre +:+ kw +:+ tok +:+ rest
       /\ (rest = "" \/ exists c rest', rest = String c rest' /\ is_space c = true).
Proof.
  induction data as [|c data IH].
  - simpl. destruct (strip_prefix kw "") as [after|] eqn:E; [|discriminate].
    destruct (nonempty (span_nonspace after)) eqn:En; [|discriminate].
    intros [= <-]. apply strip_prefix_spec in E.
    destruct (span_nonspace_spec after) as (rest & Ea & Hrest & Hall).
    split; [now apply nonempty_true|]. split; [exact Hall|].
    exists "", rest. split; [|exact Hrest]. rewrite append_nil_l, E. now rewrite <- Ea.
  - simpl.
    destruct (strip_prefix kw (String c data)) as [after|] eqn:E.
    + destruct (nonempty (span_nonspace after)) eqn:En.
      * intros [= <-]. apply strip_prefix_spec in E.
        destruct (span_nonspace_spec after) as (rest & Ea & Hrest & Hall).
        split; [now apply nonempty_true|]. split; [exact Hall|].
        exists "", rest. split; [|exact Hrest].
        rewrite append_nil_l, E. now rewrite <- Ea.
      * intros H. destruct (IH H) as (H1 & H2 & pre & rest & -> & Hrest).
        split; [exact H1|]. split; [exact H2|].
        exists (String c pre), rest. split; [reflexivity|exact Hrest].
    + intros H. destruct (IH H) as (H1 & H2 & pre & rest & -> & Hrest).
      split; [exact H1|]. split; [exact H2|].
      exists (String c pre), rest. split; [reflexivity|exact Hrest].
Qed.

Lemma search_rest_of_line_spec kw data l :
  search_rest_of_line kw data = Some l ->
  l <> ""
  /\ Forall (fun c => c <> LF) (list_ascii_of_string l)
  /\ exists pre rest,
       data = pre +:+ kw +:+ l +:+ rest
       /\ (rest = "" \/ exists rest', rest = String LF rest').
Proof.
  induction data as [|c data IH].
  - simpl. destruct (strip_prefix kw "") as [after|] eqn:E; [|discriminate].
    destruct (nonempty (span_line after)) eqn:En; [|discriminate].
    intros [= <-]. apply strip_prefix_spec in E.
    destruct (span_line_spec after) as (rest & Ea & Hrest & Hall).
    split; [now apply nonempty_true|]. split; [exact Hall|].
    exists "", rest. split; [|exact Hrest]. rewrite append_nil_l, E. now rewrite <- Ea.
  - simpl.
    destruct (strip_prefix kw (String c data)) as [after|] eqn:E.
    + destruct (nonempty (span_line after)) eqn:En.
      * intros [= <-]. apply strip_prefix_spec in E.
        destruct (span_line_spec after) as (rest & Ea & Hrest & Hall).
        split; [now apply nonempty_true|]. split; [exact Hall|].
        exists "", rest. split; [|exact Hrest].
        rewrite append_nil_l, E. now rewrite <- Ea.
      * intros H. destruct (IH H) as (H1 & H2 & pre & rest & -> & Hrest).
        split; [exact H1|]. split; [exact H2|].
        exists (String c pre), rest. split; [reflexivity|exact Hrest].
    + intros H. destruct (IH H) as (H1 & H2 & pre & rest & -> & Hrest).
      split; [exact H1|]. split; [exact H2|].
      exists (String c pre), rest. split; [reflexivity|exact Hrest].
Qed.

(** X16: a role that [parse_role] returns is a non-empty token without
    whitespace that stands in the text right after ["role "] and ends at a
    whitespace character or at the end of the text. *)
Theorem parsed_role_is_a_token data r :
  parse_role data = PStr r ->
  r <> ""
  /\ Forall (fun c => is_space c = false) (list_ascii_of_string r)
  /\ exists pre rest,
       data = pre +:+ "role " +:+ r +:+ rest
       /\ (rest = "" \/ exists c rest', rest = String c rest' /\ is_space c = true).
Proof.
  unfold parse_role.
  destruct (search_token "role " data) as [tok|] eqn:E; simpl; [|discriminate].
  intros [= <-]. now apply search_token_spec.
Qed.

Lemma parsed_role_is_a_token_witness :
  parse_role "username bob privilege 7 role network-admin nopassword"
    = PStr "network-admin"
  /\ exists pre rest,
       "username bob privilege 7 role network-admin nopassword"
         = pre +:+ "role " +:+ "network-admin" +:+ rest
       /\ (rest = "" \/ exists c rest', rest = String c rest' /\ is_space c = true).
Proof.
  assert (E : parse_role "username bob privilege 7 role network-admin nopassword"
              = PStr "network-admin") by by_evaluation.
  split; [exact E|].
  now destruct (parsed_role_is_a_token _ _ E) as (_ & _ & H).
Defined.

(** X17: an ssh key that [parse_sshkey] returns is the non-empty remainder
    of a line after ["sshkey "]: it holds no newline, keeps its inner
    whitespace, and ends at a newline or at the end of the text. *)
Theorem parsed_sshkey_is_the_rest_of_the_line data k :
  parse_sshkey data = PStr k ->
  k <> ""
  /\ Forall (fun c => c <> LF) (list_ascii_of_string k)
  /\ exists pre rest,
       data = pre +:+ "sshkey " +:+ k +:+ rest
       /\ (rest = "" \/ exists rest', rest = String LF rest').
Proof.
  unfold parse_sshkey.
  destruct (search_rest_of_line "sshkey " data) as [l|] eqn:E; simpl; [|discriminate].
  intros [= <-]. now apply search_rest_of_line_spec.
Qed.

Lemma parsed_sshkey_is_the_rest_of_the_line_witness :
  let data := "username bob sshkey ssh-rsa AAAAB3 bob@host" +:+ String LF
              "username bob privilege 7" in
  parse_sshkey data = PStr "ssh-rsa AAAAB3 bob@host"
  /\ exists pre rest,
       data = pre +:+ "sshkey " +:+ "ssh-rsa AAAAB3 bob@host" +:+ rest
       /\ (rest = "" \/ exists rest', rest = String LF rest').
Proof.
  intros data.
  assert (E : parse_sshkey data = PStr "ssh-rsa AAAAB3 bob@host") by by_evaluation.
  split; [exact E|].
  now destruct (parsed_sshkey_is_the_rest_of_the_line _ _ E) as (_ & _ & H).
Defined.

(** ** Round trips: the parser on the commands the renderer writes *)

Lemma search_token_unfold kw data :
  search_token kw data =
    match match strip_prefix kw data with
          | Some rest => let tok := span_nonspace rest in
                         if nonempty tok then Some tok else None
          | None => None
          end with
    | Some tok => Some tok
    | None => match data with
              | EmptyString => None
              | String _ data' => search_token kw data'
              end
    end.
Proof. destruct data; reflexivity. Qed.

Lemma search_rest_of_line_unfold kw data :
  search_rest_of_line kw data =
    match match strip_prefix kw data with
          | Some rest => let l := span_line rest in
                         if nonempty l then Some l else None
          | None => None
          end with
    | Some l => Some l
    | None => match data with
              | EmptyString => None
              | String _ data' => search_rest_of_line kw data'
              end
    end.
Proof. destruct data; reflexivity. Qed.

Lemma strip_prefix_head k kw c s :
  c <> k -> strip_prefix (String k kw) (String c s) = None.
Proof.
  intros Hne. simpl. destruct (Ascii.eqb_spec k c) as [->|_]; [now contradiction Hne|].
  reflexivity.
Qed.

Lemma search_token_skip_prefix k kw pre data :
  Forall (fun c => c <> k) (list_ascii_of_string pre) ->
  search_token (String k kw) (pre +:+ data) = search_token (String k kw) data.
Proof.
  induction pre as [|c pre IH]; intros H; [reflexivity|].
  cbn [list_ascii_of_string] in H. inversion H as [|? ? Hc Hrest]; subst.
  rewrite append_cons, search_token_unfold, strip_prefix_head by assumption.
  now apply IH.
Qed.

Lemma search_rest_of_line_skip_prefix k kw pre data :
  Forall (fun c => c <> k) (list_ascii_of_string pre) ->
  search_rest_of_line (String k kw) (pre +:+ data)
    = search_rest_of_line (String k kw) data.
Proof.
  induction pre as [|c pre IH]; intros H; [reflexivity|].
  cbn [list_ascii_of_string] in H. inversion H as [|? ? Hc Hrest]; subst.
  rewrite append_cons, search_rest_of_line_unfold, strip_prefix_head by assumption.
  now apply IH.
Qed.

Lemma span_nonspace_token tok :
  Forall (fun c => is_space c = false) (list_ascii_of_string tok) ->
  span_nonspace tok = tok.
Proof.
  induction tok as [|c tok IH]; simpl; intros H; [reflexivity|].
  inversion H as [|? ? Hc Hrest]; subst. rewrite Hc. now rewrite IH.
Qed.

Lemma span_line_text l :
  Forall (fun c => c <> LF) (list_ascii_of_string l) -> span_line l = l.
Proof.
  induction l as [|c l IH]; simpl; intros H; [reflexivity|].
  inversion H as [|? ? Hc Hrest]; subst.
  destruct (Ascii.eqb_spec c LF) as [->|_]; [now contradiction Hc|]. now rewrite IH.
Qed.

Lemma nonempty_iff s : nonempty s = true <-> s <> "".
Proof. destruct s; simpl; split; congruence. Qed.

Lemma search_token_here kw tok :
  tok <> "" ->
  Forall (fun c => is_space c = false) (list_ascii_of_string tok) ->
  search_token kw (kw +:+ tok) = Some tok.
Proof.
  intros Hne Hall. rewrite search_token_unfold.
  rewrite (proj2 (strip_prefix_spec kw (kw +:+ tok) tok) eq_refl).
  cbv zeta. rewrite span_nonspace_token by assumption.
  now rewrite (proj2 (nonempty_iff tok) Hne).
Qed.

Lemma search_rest_of_line_here kw l :
  l <> "" ->
  Forall (fun c => c <> LF) (list_ascii_of_string l) ->
  search_rest_of_line kw (kw +:+ l) = Some l.
Proof.
  intros Hne Hall. rewrite search_rest_of_line_unfold.
  rewrite (proj2 (strip_prefix_spec kw (kw +:+ l) l) eq_refl).
  cbv zeta. rewrite span_line_text by assumption.
  now rewrite (proj2 (nonempty_iff l) Hne).
Qed.

Lemma role_skips_username x :
  search_token "role " ("username " +:+ x) = search_token "role " x.
Proof. reflexivity. Qed.

Lemma role_skips_space x : search_token "role " (" " +:+ x) = search_token "role " x.
Proof. reflexivity. Qed.

Lemma sshkey_skips_username x :
  search_rest_of_line "sshkey " ("username " +:+ x) = search_rest_of_line "sshkey " x.
Proof. reflexivity. Qed.

Lemma sshkey_skips_space x :
  search_rest_of_line "sshkey " (" " +:+ x) = search_rest_of_line "sshkey " x.
Proof. reflexivity. Qed.

(** X18: the parser reads a rendered role or sshkey command back: for a
    username without the letter r, [parse_role] on the command
    [username <u> role <r>] returns [r] when [r] is a non-empty token without
    whitespace; for a username without the letter s, [parse_sshkey] on
    [username <u> sshkey <k>] returns [k] when [k] is non-empty and holds no
    newline. *)
Theorem rendered_role_and_sshkey_parse_back u :
  (forall r,
     Forall (fun c => c <> "r"%char) (list_ascii_of_string u) ->
     r <> "" -> Forall (fun c => is_space c = false) (list_ascii_of_string r) ->
     parse_role (field_command (PStr u) ("role " +:+ py_str (PStr r))) = PStr r)
  /\ (forall k,
        Forall (fun c => c <> "s"%char) (list_ascii_of_string u) ->
        k <> "" -> Forall (fun c => c <> LF) (list_ascii_of_string k) ->
        parse_sshkey (field_command (PStr u) ("sshkey " +:+ py_str (PStr k))) = PStr k).
Proof.
  split.
  - intros r Hu Hr Hall. unfold parse_role, field_command. cbn [py_str].
    rewrite role_skips_username, search_token_skip_prefix by assumption.
    rewrite role_skips_space. now rewrite search_token_here.
  - intros k Hu Hk Hall. unfold parse_sshkey, field_command. cbn [py_str].
    rewrite sshkey_skips_username, search_rest_of_line_skip_prefix by assumption.
    rewrite sshkey_skips_space. now rewrite search_rest_of_line_here.
Qed.

Lemma rendered_role_and_sshkey_parse_back_witness :
  parse_role "username bob role network-admin" = PStr "network-admin"
  /\ parse_sshkey "username bob sshkey ssh-rsa AAAAB3 bob@host"
     = PStr "ssh-rsa AAAAB3 bob@host".
Proof.
  destruct (rendered_role_and_sshkey_parse_back "bob") as [Hrole Hkey]. split.
  - apply (Hrole "network-admin"); [|discriminate|];
      repeat constructor; discriminate.
  - apply (Hkey "ssh-rsa AAAAB3 bob@host"); [|discriminate|];
      repeat constructor; discriminate.
Defined.

Lemma append_assoc (a b c : string) : (a +:+ b) +:+ c = a +:+ (b +:+ c).
Proof.
  induction a as [|x a IH]; [reflexivity|].
  rewrite !append_cons. now rewrite IH.
Qed.

Lemma append_nil_r (a : string) : a +:+ "" = a.
Proof. induction a as [|x a IH]; [reflexivity|]. rewrite append_cons. now rewrite IH. Qed.

Lemma list_ascii_of_string_app (a b : string) :
  list_ascii_of_string (a +:+ b) = list_ascii_of_string a ++ list_ascii_of_string b.
Proof.
  induction a as [|x a IH]; [reflexivity|].
  rewrite append_cons. simpl. now rewrite IH.
Qed.

Lemma digits_value_app acc (a b : string) :
  digits_value acc (a +:+ b) =
    match digits_value acc a with
    | Some v => digits_value v b
    | None => None
    end.
Proof.
  revert acc. induction a as [|x a IH]; intros acc; [reflexivity|].
  rewrite append_cons. simpl. destruct (digit_of x); [apply IH|reflexivity].
Qed.

Lemma pretty_N_char_cases d :
  (d < 10)%N ->
  digit_of (pretty_N_char d) = Some (Z.of_N d)
  /\ is_space (pretty_N_char d) = false
  /\ pretty_N_char d <> "-"%char /\ pretty_N_char d <> "+"%char.
Proof.
  intros Hd.
  assert (H : (d = 0 \/ d = 1 \/ d = 2 \/ d = 3 \/ d = 4 \/ d = 5 \/ d = 6 \/ d = 7
               \/ d = 8 \/ d = 9)%N) by lia.
  repeat (destruct H as [->|H]; [repeat split; (reflexivity || discriminate)|]).
  subst d. repeat split; (reflexivity || discriminate).
Qed.

(** The digits [pretty_N_go] puts in front of its accumulator. *)
Lemma pretty_N_go_digits x s :
  exists d k,
    pretty_N_go x s = d +:+ s
    /\ (forall acc, digits_value acc d = Some (acc * k + Z.of_N x))
    /\ Forall (fun c => exists n, (n < 10)%N /\ c = pretty_N_char n)
         (list_ascii_of_string d)
    /\ ((0 < x)%N -> d <> "").
Proof.
  revert s. induction (N.lt_wf_0 x) as [x _ IH]. intros s.
  destruct (N.eq_dec x 0%N) as [->|Hx].
  - exists "", 1. split; [reflexivity|]. split; [intros acc; simpl; f_equal; lia|].
    split; [constructor|lia].
  - rewrite pretty_N_go_step by lia.
    assert (Hr : (x mod 10 < 10)%N) by (apply N.mod_lt; lia).
    destruct (IH (x / 10)%N ltac:(apply N.div_lt; lia)
                (String (pretty_N_char (x mod 10)) s)) as (d & k & E & Hv & Hall & _).
    exists (d +:+ String (pretty_N_char (x mod 10)) ""), (10 * k).
    split; [rewrite E, append_assoc; reflexivity|]. split; [|split].
    + intros acc. rewrite digits_value_app, Hv. simpl.
      destruct (pretty_N_char_cases _ Hr) as (-> & _). f_equal.
      pose proof (N.div_mod x 10 ltac:(lia)) as Hdm.
      set (q := (x / 10)%N) in *. set (r := (x mod 10)%N) in *. lia.
    + rewrite list_ascii_of_string_app. apply Forall_app. split; [exact Hall|].
      constructor; [eauto|constructor].
    + intros _ H.
      destruct d; [rewrite append_nil_l in H|rewrite append_cons in H];
        discriminate H.
Qed.

Lemma py_int_unsigned c t :
  c <> "-"%char -> c <> "+"%char ->
  py_int (String c t) =
    match digits_value 0 (String c t) with
    | Some z => Ok z
    | None => Raise (ValueError (String c t))
    end.
Proof.
  intros Hm Hp.
  destruct c as [[] [] [] [] [] [] [] []];
    try reflexivity; exfalso; (now apply Hm) || (now apply Hp).
Qed.

Lemma py_int_minus t :
  t <> "" ->
  py_int (String "-" t) =
    match digits_value 0 t with
    | Some z => Ok (- z)
    | None => Raise (ValueError (String "-" t))
    end.
Proof.
  intros Ht. unfold py_int. rewrite (proj2 (nonempty_iff t) Ht).
  now destruct (digits_value 0 t).
Qed.

Lemma pretty_pos_digits (p : positive) :
  exists d k,
    pretty (Z.pos p) = d
    /\ (forall acc, digits_value acc d = Some (acc * k + Z.pos p))
    /\ Forall (fun c => exists n, (n < 10)%N /\ c = pretty_N_char n)
         (list_ascii_of_string d)
    /\ d <> "".
Proof.
  destruct (pretty_N_go_digits (N.pos p) "") as (d & k & E & Hv & Hall & Hne).
  rewrite append_nil_r in E.
  exists d, k. split; [exact E|]. split; [exact Hv|]. split; [exact Hall|].
  apply Hne. lia.
Qed.

(** [int('%s' % z)] is [z]. *)
Lemma py_int_pretty (z : Z) : py_int (pretty z) = Ok z.
Proof.
  destruct z as [|p|p]; [reflexivity| |].
  - destruct (pretty_pos_digits p) as (d & k & -> & Hv & Hall & Hne).
    destruct d as [|c t]; [now contradiction Hne|].
    cbn [list_ascii_of_string] in Hall. inversion Hall as [|? ? (n & Hn & ->) _]; subst.
    destruct (pretty_N_char_cases n Hn) as (_ & _ & Hm & Hp).
    rewrite py_int_unsigned, Hv by assumption. f_equal.
  - change (pretty (Z.neg p)) with (String "-" (pretty (Z.pos p))).
    destruct (pretty_pos_digits p) as (d & k & -> & Hv & Hall & Hne).
    rewrite py_int_minus, Hv by assumption. f_equal.
Qed.

Lemma pretty_is_a_token (z : Z) :
  pretty z <> ""
  /\ Forall (fun c => is_space c = false) (list_ascii_of_string (pretty z)).
Proof.
  assert (Hpos : forall p,
    pretty (Z.pos p) <> ""
    /\ Forall (fun c => is_space c = false) (list_ascii_of_string (pretty (Z.pos p)))).
  { intros p. destruct (pretty_pos_digits p) as (d & k & -> & _ & Hall & Hne).
    split; [exact Hne|]. eapply List.Forall_impl; [|exact Hall].
    intros c (n & Hn & ->). now destruct (pretty_N_char_cases n Hn) as (_ & H & _). }
  destruct z as [|p|p]; [split; [discriminate|repeat constructor]|apply Hpos|].
  change (pretty (Z.neg p)) with (String "-" (pretty (Z.pos p))).
  split; [discriminate|]. cbn [list_ascii_of_string].
  constructor; [reflexivity|apply Hpos].
Qed.

Lemma privilege_skips_username x :
  search_token "privilege " ("username " +:+ x) = search_token "privilege " x.
Proof. reflexivity. Qed.

Lemma privilege_skips_space x :
  search_token "privilege " (" " +:+ x) = search_token "privilege " x.
Proof. reflexivity. Qed.

(** X19: the parser reads a rendered privilege command back: for a username
    without the letter p and every integer [z], [parse_privilege] on the
    command [username <u> privilege <z>] returns [z]. *)
Theorem rendered_privilege_parses_back u z :
  Forall (fun c => c <> "p"%char) (list_ascii_of_string u) ->
  parse_privilege (field_command (PStr u) ("privilege " +:+ py_str (PInt z)))
    = Ok (PInt z).
Proof.
  intros Hu. unfold parse_privilege, field_command. cbn [py_str].
  rewrite privilege_skips_username, search_token_skip_prefix by assumption.
  rewrite privilege_skips_space.
  destruct (pretty_is_a_token z) as [Hne Hall].
  rewrite search_token_here by assumption.
  now rewrite py_int_pretty.
Qed.

Lemma rendered_privilege_parses_back_witness :
  parse_privilege "username bob privilege 15" = Ok (PInt 15).
Proof.
  apply (rendered_privilege_parses_back "bob" 15).
  repeat constructor; discriminate.
Defined.

(** ** What a run reports *)

(** X20: when [main] exits normally, the commands it reports are the
    commands it computed, none of them removes [admin], [changed] is
    reported exactly when there is a command (also in check mode), that is
    exactly when [load_config] was called, and a diff is only reported when
    the module runs in diff mode. *)
Theorem exit_reports_the_commands re config load_config module calls r :
  main re config load_config module = (calls, Ok r) ->
  main_commands re config module = Ok (commands r)
  /\ ~ In "no username admin" (commands r)
  /\ (changed r = true <-> commands r <> [])
  /\ (changed r = true <-> calls <> [])
  /\ (is_Some (diff r) -> _diff module = true).
Proof.
  unfold main. destruct (main_commands re config module) as [cmds|e]; [|discriminate].
  destruct (existsb (String.eqb "no username admin") cmds) eqn:Ex; [discriminate|].
  assert (Hadmin : ~ In "no username admin" cmds).
  { intros Hin.
    assert (Ht : existsb (String.eqb "no username admin") cmds = true).
    { apply existsb_exists. exists "no username admin".
      split; [exact Hin|apply String.eqb_refl]. }
    congruence. }
  destruct cmds as [|c cmds]; intros [= <- <-]; cbn [commands changed diff].
  - split; [reflexivity|]. split; [exact Hadmin|].
    split; [split; [discriminate|congruence]|].
    split; [split; [discriminate|congruence]|]. intros [d Hd]. discriminate Hd.
  - split; [reflexivity|]. split; [exact Hadmin|].
    split; [split; [discriminate|reflexivity]|].
    split; [split; [discriminate|reflexivity]|].
    destruct (truthy (dict_get (load_config (c :: cmds) (negb (check_mode module))) "diff")
              && _diff module)%bool eqn:Ed.
    + intros _. now apply andb_true_iff in Ed as [_ Ed].
    + intros [d Hd]. discriminate Hd.
Qed.

Lemma exit_reports_the_commands_witness :
  let module :=
    {| params := params_bob_privilege 7; check_mode := true; _diff := false;
       _CHECK_ARGUMENT_TYPES_DISPATCHER := accept_all |} in
  exists calls r,
    main no_engine "" no_response module = (calls, Ok r)
    /\ commands r = ["username bob privilege 7"]
    /\ changed r = true
    /\ main_commands no_engine "" module = Ok (commands r).
Proof.
  intros module.
  exists [LoadConfig ["username bob privilege 7"] false],
    {| changed := true; commands := ["username bob privilege 7"]; diff := None;
       session_name := Some PNone |}.
  assert (E : main no_engine "" no_response module
              = ([LoadConfig ["username bob privilege 7"] false],
                 Ok {| changed := true; commands := ["username bob privilege 7"];
                       diff := None; session_name := Some PNone |}))
    by by_evaluation.
  split; [exact E|]. split; [reflexivity|]. split; [reflexivity|].
  now destruct (exit_reports_the_commands _ _ _ _ _ _ E) as [H _].
Defined.

(** ** The normalizer: the values it fills in *)

Lemma get_param_value_value key item module v :
  get_param_value key item module = Ok v ->
  (truthy (dict_get item key) = true -> item !! key = Some v)
  /\ (truthy (dict_get item key) = false -> params_getitem (params module) key = Ok v).
Proof.
  unfold get_param_value. destruct (truthy (dict_get item key)) eqn:Et; simpl.
  - unfold getitem. destruct (item !! key) as [w|] eqn:Ei; simpl; [|discriminate].
    destruct (_CHECK_ARGUMENT_TYPES_DISPATCHER module (argument_spec_type key) w);
      simpl; [|discriminate].
    intros H. split; [intros _|discriminate]. f_equal.
    destruct (validator_for key) as [validator|]; [|congruence].
    destruct (truthy w); [|congruence].
    destruct (validator w module); simpl in H; [congruence|discriminate].
  - intros H. split; [discriminate|intros _].
    destruct (params_getitem (params module) key) as [w|e]; simpl in H; [|discriminate].
    f_equal.
    destruct (validator_for key) as [validator|]; [|congruence].
    destruct (truthy w); [|congruence].
    destruct (validator w module); simpl in H; [congruence|discriminate].
Qed.

Lemma dict_get_insert_ne (d : dict) k k' v :
  k <> k' -> dict_get (<[k := v]> d) k' = dict_get d k'.
Proof. intros H. unfold dict_get. now rewrite lookup_insert_ne. Qed.

Lemma populate_values item module obj key :
  populate item module = Ok obj -> In key populated_keys ->
  (truthy (dict_get item key) = true -> obj !! key = item !! key)
  /\ (truthy (dict_get item key) = false ->
      exists v, params_getitem (params module) key = Ok v /\ obj !! key = Some v).
Proof.
  unfold populate.
  repeat (match goal with
          | |- context [get_param_value ?k ?i ?m] =>
              let E := fresh "E" in
              destruct (get_param_value k i m) eqn:E; simpl; [|discriminate]
          end).
  intros [= <-] Hin.
  repeat match goal with
         | E : get_param_value _ _ _ = Ok _ |- _ =>
             apply get_param_value_value in E;
             rewrite ?dict_get_insert_ne, ?lookup_insert_ne in E by discriminate
         end.
  simpl in Hin.
  destruct Hin as [<-|[<-|[<-|[<-|[<-|[<-|[]]]]]]];
    rewrite ?lookup_insert_ne by discriminate; rewrite lookup_insert_eq;
    match goal with
    | E : (truthy (dict_get item ?k) = true -> _) /\ _
      |- (truthy (dict_get item ?k) = true -> _) /\ _ =>
        destruct E as [Et Ef]; split;
        [intros Ht; now rewrite (Et Ht)
        |intros Ht; eexists; split; [exact (Ef Ht)|reflexivity]]
    end.
Qed.

(** X21: in the list form, each of the six fields of a returned record is
    the entry's own value when that value is truthy, and otherwise the
    module-wide value of the field. *)
Theorem normalized_field_values module items objs :
  users (params module) = Some items -> items <> [] ->
  map_params_to_obj module = Ok objs ->
  Forall2 (fun it obj =>
             forall key, In key populated_keys ->
               (truthy (dict_get (item_dict it) key) = true ->
                obj !! key = item_dict it !! key)
               /\ (truthy (dict_get (item_dict it) key) = false ->
                   exists v, params_getitem (params module) key = Ok v
                             /\ obj !! key = Some v))
    items objs.
Proof.
  intros Hu Hne H.
  apply map_params_to_obj_collection in H as (collection & HF & _ & Hc & _).
  rewrite (Hc items Hu Hne) in HF. clear Hc Hu Hne.
  revert objs HF. induction items as [|it items IH]; intros objs HF;
    inversion HF as [|d obj ds objs' Hp HF' E1 E2]; subst; constructor.
  - intros key Hkey. now apply (populate_values _ module).
  - now apply IH.
Qed.

Lemma normalized_field_values_witness :
  let items :=
    [Hash (<["username" := PStr "netop"]> (<["privilege" := PInt 5]> ∅));
     Bare (PStr "netend")] in
  let module :=
    task {| users := Some items;
            username := None; password := None; nopassword := None;
            update_password := "always"; privilege := Some 15; role := Some "ops";
            sshkey := None; purge := false; state := "present" |} in
  let objs :=
    [record (PStr "netop") PNone PNone (PInt 5) (PStr "ops") PNone (PStr "present");
     record (PStr "netend") PNone PNone (PInt 15) (PStr "ops") PNone (PStr "present")] in
  map_params_to_obj module = Ok objs
  /\ Forall2 (fun it obj =>
                forall key, In key populated_keys ->
                  (truthy (dict_get (item_dict it) key) = true ->
                   obj !! key = item_dict it !! key)
                  /\ (truthy (dict_get (item_dict it) key) = false ->
                      exists v, params_getitem (params module) key = Ok v
                                /\ obj !! key = Some v))
       items objs.
Proof.
  intros items module objs.
  assert (E : map_params_to_obj module = Ok objs) by by_evaluation.
  split; [exact E|].
  apply (normalized_field_values module items objs);
    [reflexivity|discriminate|exact E].
Defined.

(** ** Passwords and privileges, once more *)

(** X22: under the policy "always" a want record that is to be present and
    carries a password never reconciles to the empty command list against
    parsed have records: the secret is sent on every pass. *)
Theorem password_is_sent_on_every_pass have module entry :
  Forall (fun obj => have_record obj /\ dict_get obj "password" = PNone
                     /\ dict_get obj "state" = PStr "present") have ->
  want_record entry ->
  entry !! "state" = Some (PStr "present") ->
  truthy (dict_get entry "password") = true ->
  update_password (params module) = "always" ->
  exists cmds, reconcile [entry] have module = Ok cmds /\ cmds <> [].
Proof.
  intros Eh Hw Hst Hpw Hpol.
  assert (Hh : Forall have_record have)
    by (eapply List.Forall_impl; [|exact Eh]; now intros obj [H _]).
  assert (Hl : Forall want_record [entry]) by (constructor; [assumption|constructor]).
  eexists. split; [now apply reconcile_closed_form|].
  intros Hnil.
  apply (always_policy_resends_password have module entry Eh Hw Hst Hpw Hpol).
  rewrite (reconcile_closed_form _ _ _ Hh Hl). now rewrite Hnil.
Qed.

Lemma password_is_sent_on_every_pass_witness :
  exists cmds,
    reconcile [record (PStr "bob") (PStr "x") PNone PNone PNone PNone (PStr "present")]
      [have_bob] (task (params_bob_password "always" "present")) = Ok cmds
    /\ cmds <> [].
Proof.
  apply password_is_sent_on_every_pass.
  - constructor; [|constructor].
    split; [apply record_have_record|]. split; reflexivity.
  - apply record_want_record.
  - reflexivity.
  - reflexivity.
  - reflexivity.
Defined.

(** X23: a privilege in 1..15 that differs from the one of the have record
    appears unchanged, in decimal, in the privilege command rendered for a
    want record that is not absent. *)
Theorem privilege_is_rendered_verbatim update_password want have u st z :
  want !! "username" = Some u ->
  want !! "state" = Some st -> py_eq st (PStr "absent") = false ->
  want !! "privilege" = Some (PInt z) -> 1 <= z <= 15 ->
  py_eq (PInt z) (dict_get have "privilege") = false ->
  exists cmds,
    render_update update_password want have [] = Ok cmds
    /\ In ("username " +:+ py_str u +:+ " privilege " +:+ pretty z) cmds.
Proof.
  intros Hu Hst Hne Hp Hz Hd.
  destruct (privilege_round_trips update_password want have u st z Hu Hst Hne Hp Hz Hd)
    as (cmds & E & Hin).
  exists cmds. split; [exact E|]. exact Hin.
Qed.

Lemma privilege_is_rendered_verbatim_witness :
  exists cmds,
    render_update "always"
      (record (PStr "bob") PNone PNone (PInt 15) PNone PNone (PStr "present"))
      have_bob [] = Ok cmds
    /\ In "username bob privilege 15" cmds.
Proof.
  apply (privilege_is_rendered_verbatim "always" _ have_bob (PStr "bob")
           (PStr "present") 15); try reflexivity; lia.
Defined.

(** ** The lines of a configuration text and the matches of the per-user pattern *)


Lemma one_line_cons c s : one_line (String c s) <-> c <> LF /\ one_line s.
Proof. unfold one_line. cbn [list_ascii_of_string]. apply List.Forall_cons_iff. Qed.

Lemma span_line_app l rest :
  one_line l -> (rest = "" \/ exists rest', rest = String LF rest') ->
  span_line (l +:+ rest) = l.
Proof.
  intros Hl Hrest. induction l as [|c l IH].
  - rewrite append_nil_l. destruct Hrest as [->|(rest' & ->)]; [reflexivity|].
    cbn [span_line]. now rewrite Ascii.eqb_refl.
  - apply one_line_cons in Hl as [Hc Hl]. rewrite append_cons. cbn [span_line].
    destruct (Ascii.eqb_spec c LF) as [->|_]; [now contradiction Hc|].
    now rewrite IH.
Qed.

(** [split_lines] starts with the text up to the first newline; each later
    element stands after a newline of the text. *)
Lemma split_lines_structure data :
  exists ls,
    split_lines data = span_line data :: ls
    /\ forall line, In line ls ->
         exists b after,
           data = (b +:+ String LF "") +:+ line +:+ after
           /\ (after = "" \/ exists a, after = String LF a)
           /\ one_line line.
Proof.
  induction data as [|c data (ls & E & Hls)].
  - exists []. split; [reflexivity|]. intros line [].
  - cbn [split_lines span_line]. destruct (Ascii.eqb_spec c LF) as [->|Hne].
    + exists (split_lines data). split; [reflexivity|]. rewrite E.
      intros line [<-|Hin].
      * destruct (span_line_spec data) as (rest & Er & Hrest & Hall).
        exists "", rest. split; [|split; [exact Hrest|exact Hall]].
        rewrite append_nil_l, append_cons, append_nil_l. now rewrite <- Er.
      * destruct (Hls line Hin) as (b & after & Ed & Hafter & Hall).
        exists (String LF b), after. split; [|split; assumption].
        rewrite !append_cons. now rewrite <- Ed.
    + rewrite E. exists ls. split; [reflexivity|]. intros line Hin.
      destruct (Hls line Hin) as (b & after & Ed & Hafter & Hall).
      exists (String c b), after. split; [|split; assumption].
      rewrite !append_cons. now rewrite <- Ed.
Qed.

(** Every element of [split_lines data] is a line of [data]. *)
Lemma split_lines_sound data line : In line (split_lines data) -> is_line_of data line.
Proof.
  destruct (split_lines_structure data) as (ls & -> & Hls). intros [<-|Hin].
  - destruct (span_line_spec data) as (rest & Er & Hrest & Hall).
    exists "", rest. rewrite append_nil_l.
    split; [exact Er|]. split; [now left|]. split; [|exact Hall].
    destruct Hrest as [->|(rest' & ->)]; [now left|right; eauto].
  - destruct (Hls line Hin) as (b & after & Ed & Hafter & Hall).
    exists (b +:+ String LF ""), after. split; [exact Ed|].
    split; [right; eauto|]. split; assumption.
Qed.

Lemma split_lines_head data l ls : split_lines data = l :: ls -> l = span_line data.
Proof. destruct (split_lines_structure data) as (ls' & -> & _). congruence. Qed.

Lemma split_lines_after_newline b line after :
  one_line line -> (after = "" \/ exists a, after = String LF a) ->
  In line (tl (split_lines ((b +:+ String LF "") +:+ line +:+ after))).
Proof.
  intros Hl Hafter. induction b as [|c b IH].
  - rewrite append_nil_l, append_cons, append_nil_l. cbn [split_lines].
    rewrite Ascii.eqb_refl. cbn [tl].
    destruct (split_lines_structure (line +:+ after)) as (ls & -> & _).
    left. now apply span_line_app.
  - rewrite !append_cons. cbn [split_lines].
    destruct (Ascii.eqb c LF).
    + cbn [tl].
      destruct (split_lines ((b +:+ String LF "") +:+ line +:+ after)) as [|l ls];
        [destruct IH|]. right. exact IH.
    + destruct (split_lines ((b +:+ String LF "") +:+ line +:+ after)) as [|l ls];
        [destruct IH|]. exact IH.
Qed.

(** Every line of [data] is an element of [split_lines data]. *)
Lemma split_lines_complete data line : is_line_of data line -> In line (split_lines data).
Proof.
  intros (before & after & -> & Hbefore & Hafter & Hl).
  destruct Hbefore as [->|(b & ->)].
  - rewrite append_nil_l.
    destruct (split_lines_structure (line +:+ after)) as (ls & -> & _).
    left. now apply span_line_app.
  - pose proof (split_lines_after_newline b line after Hl Hafter) as Hin.
    destruct (split_lines ((b +:+ String LF "") +:+ line +:+ after)); [destruct Hin|].
    right. exact Hin.
Qed.

(** A match of the per-user pattern is the end of its line, from an
    occurrence of the literal that is followed by at least one character. *)
Lemma match_in_line_sound lit line m :
  match_in_line lit line = Some m ->
  exists pre rest, line = pre +:+ m /\ m = lit +:+ rest /\ rest <> "".
Proof.
  induction line as [|c line IH]; cbn [match_in_line].
  - destruct (strip_prefix lit "") as [rest|] eqn:E; [|discriminate].
    destruct (nonempty rest) eqn:En; [|discriminate]. intros [= <-].
    apply strip_prefix_spec in E. exists "", rest.
    split; [reflexivity|]. split; [exact E|now apply nonempty_true].
  - destruct (strip_prefix lit (String c line)) as [rest|] eqn:E.
    + destruct (nonempty rest) eqn:En.
      * intros [= <-]. apply strip_prefix_spec in E. exists "", rest.
        split; [reflexivity|]. split; [exact E|now apply nonempty_true].
      * intros H. destruct (IH H) as (pre & rest' & -> & Hm & Hne).
        exists (String c pre), rest'. now rewrite append_cons.
    + intros H. destruct (IH H) as (pre & rest' & -> & Hm & Hne).
      exists (String c pre), rest'. now rewrite append_cons.
Qed.

(** Every occurrence of the literal that is followed by a character lies in
    the match: the match starts at the first of them. *)
Lemma match_in_line_complete lit pre rest :
  rest <> "" ->
  exists q, match_in_line lit (pre +:+ lit +:+ rest) = Some (q +:+ lit +:+ rest).
Proof.
  intros Hne. induction pre as [|c pre (q & IH)].
  - exists "". rewrite !append_nil_l.
    assert (E : strip_prefix lit (lit +:+ rest) = Some rest)
      by now apply strip_prefix_spec.
    destruct (lit +:+ rest) as [|c s] eqn:Es; cbn [match_in_line]; rewrite E;
      now rewrite (proj2 (nonempty_iff rest) Hne).
  - rewrite append_cons. cbn [match_in_line].
    destruct (strip_prefix lit (String c (pre +:+ lit +:+ rest))) as [r|] eqn:E.
    + destruct (nonempty r) eqn:En.
      * exists (String c pre). now rewrite append_cons.
      * exists q. exact IH.
    + exists q. exact IH.
Qed.

(** ** Substrings of joined lines *)

Lemma contains_tail p c s : contains p s = true -> contains p (String c s) = true.
Proof.
  intros H. cbn [contains].
  destruct (strip_prefix p (String c s)); [reflexivity|exact H].
Qed.

Lemma strip_prefix_before_newline p a b y :
  one_line p -> strip_prefix p (a +:+ String LF b) = Some y ->
  exists y', strip_prefix p a = Some y'.
Proof.
  revert a. induction p as [|c p IH]; intros a Hp H; [now exists a|].
  apply one_line_cons in Hp as [Hc Hp]. destruct a as [|x a].
  - rewrite append_nil_l in H. simpl in H.
    destruct (Ascii.eqb_spec c LF) as [->|_]; [now contradiction Hc|discriminate].
  - rewrite append_cons in H. simpl in H |- *.
    destruct (Ascii.eqb c x); [now apply IH|discriminate].
Qed.

Lemma contains_across_newline p a b :
  one_line p -> contains p (a +:+ String LF b) = true ->
  contains p a = true \/ contains p b = true.
Proof.
  intros Hp. induction a as [|x a IH].
  - rewrite append_nil_l. cbn [contains].
    destruct (strip_prefix p (String LF b)) as [y|] eqn:E; [|now right].
    intros _. left.
    destruct (strip_prefix_before_newline p "" b y Hp E) as (y' & E').
    now apply contains_here in E'.
  - rewrite append_cons.
    assert (Hc : forall s, contains p (String x s) =
                   match strip_prefix p (String x s) with
                   | Some _ => true | None => contains p s end)
      by reflexivity.
    rewrite Hc.
    destruct (strip_prefix p (String x (a +:+ String LF b))) as [y|] eqn:E.
    + intros _. left. rewrite <- append_cons in E.
      destruct (strip_prefix_before_newline p (String x a) b y Hp E) as (y' & E').
      now apply contains_here in E'.
    + intros H. destruct (IH H) as [Ha|Hb]; [left|now right].
      now apply contains_tail.
Qed.

Lemma contains_join_sound p ls :
  one_line p -> p <> "" -> contains p (join_lines ls) = true ->
  exists l, In l ls /\ contains p l = true.
Proof.
  intros Hp Hne. induction ls as [|l ls IH].
  - destruct p; [now contradiction Hne|discriminate].
  - destruct ls as [|l' ls]; [intros H; exists l; split; [now left|exact H]|].
    change (join_lines (l :: l' :: ls)) with (l +:+ String LF (join_lines (l' :: ls))).
    intros H. apply (contains_across_newline _ _ _ Hp) in H as [H|H].
    + exists l. split; [now left|exact H].
    + destruct (IH H) as (m & Hin & Hm). exists m. split; [now right|exact Hm].
Qed.

Lemma join_lines_In l ls : In l ls -> exists a b, join_lines ls = a +:+ l +:+ b.
Proof.
  induction ls as [|l' ls IH]; intros Hin; [destruct Hin|].
  destruct ls as [|l'' ls].
  - destruct Hin as [->|[]]. exists "", "". now rewrite append_nil_l, append_nil_r.
  - change (join_lines (l' :: l'' :: ls))
      with (l' +:+ String LF (join_lines (l'' :: ls))).
    destruct Hin as [->|Hin].
    + exists "", (String LF (join_lines (l'' :: ls))). now rewrite append_nil_l.
    + destruct (IH Hin) as (a & b & ->).
      exists (l' +:+ String LF a), b. now rewrite append_assoc, append_cons.
Qed.

Lemma contains_join_complete p l ls :
  In l ls -> contains p l = true -> contains p (join_lines ls) = true.
Proof.
  intros Hin Hc. apply contains_spec in Hc as (pre & post & ->).
  destruct (join_lines_In _ _ Hin) as (a & b & ->).
  apply contains_spec. exists (a +:+ pre), (post +:+ b).
  now rewrite !append_assoc.
Qed.

Lemma In_omap {A B} (f : A -> option B) l y :
  In y (omap f l) <-> exists x, In x l /\ f x = Some y.
Proof.
  induction l as [|a l IH]; cbn [omap list_omap].
  - split; [intros []|intros (x & [] & _)].
  - destruct (f a) as [b|] eqn:E.
    + split.
      * intros [<-|Hin]; [exists a; split; [now left|exact E]|].
        apply IH in Hin as (x & Hx & Ex). exists x. split; [now right|exact Ex].
      * intros (x & [<-|Hx] & Ex); [left; congruence|].
        right. apply IH. now exists x.
    + rewrite IH. split.
      * intros (x & Hx & Ex). exists x. split; [now right|exact Ex].
      * intros (x & [<-|Hx] & Ex); [congruence|]. now exists x.
Qed.

(** A declared username is the token that follows [username ] at the start
    of a line. *)
Lemma findall_usernames_sound data user :
  In user (findall_usernames data) ->
  exists line rest,
    is_line_of data line
    /\ line = "username " +:+ user +:+ rest
    /\ user <> "" /\ spaceless user
    /\ (rest = "" \/ exists c rest', rest = String c rest' /\ is_space c = true).
Proof.
  intros Hin. apply In_omap in Hin as (line & Hline & E).
  unfold declared_user in E.
  destruct (strip_prefix "username " line) as [r|] eqn:Er; [|discriminate].
  cbv zeta in E. destruct (nonempty (span_nonspace r)) eqn:En; [|discriminate].
  injection E as <-. apply strip_prefix_spec in Er.
  destruct (span_nonspace_spec r) as (rest & Erest & Hrest & Hall).
  exists line, rest. split; [now apply split_lines_sound|].
  split; [now rewrite <- Erest|]. split; [now apply nonempty_true|].
  split; assumption.
Qed.

(** The flag of a parsed record, in terms of the configuration text alone. *)
Lemma nopassword_flag_of_text user data :
  contains "nopassword" (user_block user data) = true
  <-> exists line pre rest,
        is_line_of data line
        /\ line = pre +:+ ("username " +:+ user +:+ " ") +:+ rest
        /\ rest <> ""
        /\ exists x y, ("username " +:+ user +:+ " ") +:+ rest
                       = x +:+ "nopassword" +:+ y.
Proof.
  unfold user_block. split.
  - intros H. apply contains_join_sound in H as (m & Hin & Hm);
      [|repeat constructor; discriminate|discriminate].
    apply In_omap in Hin as (line & Hline & Em).
    apply match_in_line_sound in Em as (pre & rest & -> & -> & Hne).
    exists (pre +:+ ("username " +:+ user +:+ " ") +:+ rest), pre, rest.
    split; [now apply split_lines_sound|]. split; [reflexivity|].
    split; [exact Hne|]. now apply contains_spec.
  - intros (line & pre & rest & Hline & -> & Hne & x & y & E).
    destruct (match_in_line_complete ("username " +:+ user +:+ " ") pre rest Hne)
      as (q & Em).
    apply (contains_join_complete _ (q +:+ ("username " +:+ user +:+ " ") +:+ rest)).
    + apply In_omap. eexists. split; [apply split_lines_complete; exact Hline|exact Em].
    + apply contains_spec. exists (q +:+ x), y. rewrite E.
      now rewrite append_assoc.
Qed.

(** C10: the nopassword flag of a parsed record is true exactly when the
    text "nopassword" occurs somewhere in the newline-joined configuration
    lines of its username, whatever field of the line it stands in.  The
    username is a token that follows [username ] at the start of a line.  For a
    username without regex metacharacters those configuration lines are cut
    from the lines of the text: each of them is the end of a line, starting
    at an occurrence of [username <user> ] that is followed by at least one
    character, and every such occurrence lies in one of them; so the flag is
    true exactly when on some line of the text "nopassword" occurs at or
    after such an occurrence. *)
Theorem nopassword_is_a_substring_test re data objs obj :
  map_config_to_obj re data = Ok objs -> In obj objs ->
  exists user lines,
    In user (findall_usernames data)
    /\ (exists line rest,
          is_line_of data line
          /\ line = "username " +:+ user +:+ rest
          /\ user <> "" /\ spaceless user
          /\ (rest = "" \/ exists c rest', rest = String c rest' /\ is_space c = true))
    /\ obj !! "username" = Some (PStr user)
    /\ findall_user re user data = Ok lines
    /\ (exists flag, obj !! "nopassword" = Some (PBool flag))
    /\ (obj !! "nopassword" = Some (PBool true)
        <-> exists pre post, join_lines lines = pre +:+ "nopassword" +:+ post)
    /\ (plain_pattern user = true ->
        let lit := "username " +:+ user +:+ " " in
        (forall m, In m lines ->
           exists pre rest,
             is_line_of data (pre +:+ m) /\ m = lit +:+ rest /\ rest <> "")
        /\ (forall line pre rest,
              is_line_of data line -> line = pre +:+ lit +:+ rest -> rest <> "" ->
              exists q, In (q +:+ lit +:+ rest) lines)
        /\ (obj !! "nopassword" = Some (PBool true)
            <-> exists line pre rest,
                  is_line_of data line
                  /\ line = pre +:+ lit +:+ rest
                  /\ rest <> ""
                  /\ exists x y, lit +:+ rest = x +:+ "nopassword" +:+ y)).
Proof.
  intros H Hin. apply map_config_to_obj_spec in H.
  destruct (Forall2_In_r _ _ _ _ H Hin) as (user & Hu & Hp).
  apply parse_user_inv in Hp as (lines & privilege & Hl & _ & ->).
  apply (proj1 (In_remove_dups _ _)) in Hu.
  exists user, lines. split; [exact Hu|].
  split; [now apply findall_usernames_sound|].
  split; [reflexivity|]. split; [assumption|].
  split; [eexists; reflexivity|].
  assert (Hflag : forall P : Prop,
    (contains "nopassword" (join_lines lines) = true <-> P) ->
    (parsed_record user (join_lines lines) privilege !! "nopassword"
       = Some (PBool true) <-> P)).
  { intros P HP. rewrite <- HP. unfold parsed_record.
    rewrite lookup_insert_ne, lookup_insert_ne, lookup_insert_eq by discriminate.
    split; [now intros [= ->]|now intros ->]. }
  split; [apply Hflag, contains_spec|].
  intros Hplain lit. unfold findall_user in Hl. rewrite Hplain in Hl.
  injection Hl as <-. fold lit. split; [|split].
  - intros m Hm. apply In_omap in Hm as (line & Hline & Em).
    apply match_in_line_sound in Em as (pre & rest & -> & -> & Hne).
    exists pre, rest. split; [now apply split_lines_sound|]. now split.
  - intros line pre rest Hline -> Hne.
    destruct (match_in_line_complete lit pre rest Hne) as (q & Em).
    exists q. apply In_omap. eexists. split; [|exact Em].
    now apply split_lines_complete.
  - apply Hflag. apply nopassword_flag_of_text.
Qed.

(** Two accounts on one device: bob's role holds the text, eve's lines do
    not; the flag follows each account's own lines. *)
Lemma nopassword_is_a_substring_test_witness :
  let data := "username bob role nopassword-admins" +:+ String LF
              "username eve sshkey ssh-rsa AAAA eve@host" in
  exists objs,
    map_config_to_obj no_engine data = Ok objs
    /\ (exists obj, In obj objs /\ obj !! "username" = Some (PStr "bob"))
    /\ (exists obj, In obj objs /\ obj !! "username" = Some (PStr "eve"))
    /\ forall obj, In obj objs ->
         (obj !! "username" = Some (PStr "bob") ->
          obj !! "role" = Some (PStr "nopassword-admins")
          /\ obj !! "nopassword" = Some (PBool true))
         /\ (obj !! "username" = Some (PStr "eve") ->
             obj !! "nopassword" = Some (PBool false)).
Proof.
  intros data.
  assert (E : exists bob eve, map_config_to_obj no_engine data = Ok [bob; eve]
                              /\ bob !! "username" = Some (PStr "bob")
                              /\ eve !! "username" = Some (PStr "eve")
                              /\ bob !! "role" = Some (PStr "nopassword-admins"))
    by (do 2 eexists; repeat split; vm_compute; reflexivity).
  destruct E as (bob & eve & E & Hb & He & Hr).
  exists [bob; eve]. split; [exact E|].
  split; [exists bob; split; [now left|exact Hb]|].
  split; [exists eve; split; [right; now left|exact He]|].
  intros obj Hin.
  destruct (nopassword_is_a_substring_test no_engine data [bob; eve] obj E Hin)
    as (user & lines & _ & _ & Hu & Hl & (flag & Hflag) & Hjoin & Htext).
  split.
  - intros Hobj. rewrite Hobj in Hu. injection Hu as <-.
    split; [destruct Hin as [<-|[<-|[]]]; [exact Hr|congruence]|].
    apply (Htext eq_refl).
    exists "username bob role nopassword-admins", "", "role nopassword-admins".
    split; [|split; [reflexivity|split; [discriminate|]]].
    + exists "", (String LF "username eve sshkey ssh-rsa AAAA eve@host").
      split; [reflexivity|]. split; [now left|]. split; [right; eauto|].
      repeat constructor; discriminate.
    + now exists "username bob role ", "-admins".
  - intros Hobj. rewrite Hobj in Hu. injection Hu as <-.
    assert (El : lines = ["username eve sshkey ssh-rsa AAAA eve@host"]).
    { assert (Ef : findall_user no_engine "eve" data
                   = Ok ["username eve sshkey ssh-rsa AAAA eve@host"])
        by (vm_compute; reflexivity).
      rewrite Ef in Hl. now injection Hl as <-. }
    destruct flag; [|exact Hflag].
    apply Hjoin in Hflag. rewrite El in Hflag. apply contains_spec in Hflag.
    vm_compute in Hflag. discriminate.
Defined.

(** ** Scanning rendered command lines for a keyword *)













Section Scanning.

(** [f] searches for the keyword [kw] from left to right: where the keyword
    does not stand, it moves on by one character. *)
Variable kw : string.
Variable f : string -> option string.
Hypothesis f_end : f "" = None.
Hypothesis f_skip :
  forall c x, strip_prefix kw (String c x) = None -> f (String c x) = f x.







End Scanning.



Lemma search_rest_of_line_end kw : search_rest_of_line kw "" = None.
Proof. now destruct kw. Qed.





(** ** The rendered commands, scanned *)








(** ** The parser on a text made of the commands for one account *)











(** ** One account, created and read back *)





Section CreatedAccount.

(** A want record with typed field values, for an account that is to exist. *)
Variable entry : dict.
Variable name : string.
Variables role password sshkey : option string.
Variable privilege : option Z.
Variable nopassword : option bool.
Variable update_password : string.

Hypothesis entry_username : dict_get entry "username" = PStr name.
Hypothesis entry_role : dict_get entry "role" = of_option PStr role.
Hypothesis entry_privilege : dict_get entry "privilege" = of_option PInt privilege.
Hypothesis entry_password : dict_get entry "password" = of_option PStr password.
Hypothesis entry_sshkey : dict_get entry "sshkey" = of_option PStr sshkey.
Hypothesis entry_nopassword : dict_get entry "nopassword" = of_option PBool nopassword.
Hypothesis entry_state : dict_get entry "state" = PStr "present".

Hypothesis name_nonempty : name <> "".
Hypothesis name_spaceless : spaceless name.
Hypothesis name_ending :
  forall w, In w ["role"; "privilege"; "sshkey"] -> forall a, name <> a +:+ w.
Hypothesis role_token : forall r, role = Some r -> spaceless r.
Hypothesis password_token : forall p, password = Some p -> spaceless p.
Hypothesis sshkey_text :
  forall k, sshkey = Some k -> one_line k /\ forall a b, k <> a +:+ "privilege " +:+ b.

Let for_role := field_commands entry ∅ "role" "role ".
Let for_privilege := field_commands entry ∅ "privilege" "privilege ".
Let for_password := field_commands entry ∅ "password" "secret ".
Let for_sshkey := field_commands entry ∅ "sshkey" "sshkey ".
Let for_nopassword := nopassword_commands entry ∅.
Let commands :=
  for_role ++ for_privilege ++ for_password ++ for_sshkey ++ for_nopassword.
Let cfg := join_lines commands.
















End CreatedAccount.






(** The conditions on the values are needed: a role with a blank is read
    back up to the blank, and a username ending in [role] hides the role, so
    that the role command is sent again on the second pass. *)
Lemma role_with_blank_is_resent :
  let bob :=
    record (PStr "bob") PNone PNone PNone (PStr "net ops") PNone (PStr "present") in
  let module := task (params_bob_password "on_create" "present") in
  reconcile [bob] [] module = Ok ["username bob role net ops"]
  /\ map_config_to_obj no_engine "username bob role net ops"
     = Ok [record (PStr "bob") PNone (PBool false) PNone (PStr "net") PNone
             (PStr "present")]
  /\ reconcile [bob]
       [record (PStr "bob") PNone (PBool false) PNone (PStr "net") PNone
          (PStr "present")] module
     = Ok ["username bob role net ops"].
Proof. intros bob module. repeat split; by_evaluation. Qed.

Lemma username_ending_in_role_hides_the_role :
  let user :=
    record (PStr "patrole") PNone PNone PNone (PStr "ops") PNone (PStr "present") in
  let module := task (params_bob_password "on_create" "present") in
  reconcile [user] [] module = Ok ["username patrole role ops"]
  /\ map_config_to_obj no_engine "username patrole role ops"
     = Ok [record (PStr "patrole") PNone (PBool false) PNone (PStr "role") PNone
             (PStr "present")]
  /\ reconcile [user]
       [record (PStr "patrole") PNone (PBool false) PNone (PStr "role") PNone
          (PStr "present")] module
     = Ok ["username patrole role ops"].
Proof. intros user module. repeat split; by_evaluation. Qed.
